(** * Personal Library Manager: the data-access layer of [main.py]

    A shallow embedding of the store functions of
    [Personal Library Manager/personal-library/main.py]
    ([execute_query], [add_book_to_db], [get_all_books], [search_books],
    [delete_book], [get_statistics]) together with the part of the SQLite
    engine that their nine SQL statements exercise, and of the script
    around them: the add form, the search and library pages, the export to
    JSON and the backup of the database file.

    Conventions of the embedding.
    - Text is [string]; a character [ascii] stands for the Unicode code point
      of the same number (U+0000 .. U+00FF).  Python's [str.lower] is closed
      on that range, and the engine's BINARY collation (byte order of the
      UTF-8 encoding) coincides with code point order.
    - SQLite INTEGER values and Python ints are [Z].  The driver binds an
      int parameter only within the signed 64-bit range and raises
      [OverflowError] otherwise; the engine hands out rowids up to
      [2^63 - 1] and fails with [sqlite3.Error] once they are used up.
    - Python exceptions are outcomes: a computation returns a value or
      raises, and what is raised travels up to the caller unless an
      [except] clause of the source catches it.
    - A Python [dict] is an association list in insertion order.
    - The engine is SQLite as Python ships it: [LOWER] and [LIKE] fold the
      letters of ASCII only (no ICU extension), and [LIKE] reads its
      operands up to their first U+0000.
    - The backing file is the [database]; a storage fault ([sqlite3.Error]
      raised in the [try] block of [execute_query] by the environment:
      open, lock, input and output, engine limits other than the rowid
      limit) is decided by a schedule carried in the [world], one entry per
      call of [execute_query].  The notice shown by [st.error] belongs to
      the display and is left out.
    - [read_percentage] is a binary64 floating-point number, computed as
      the source computes it; counts below [2^53] convert exactly. *)

From Stdlib Require Import List String Ascii ZArith NArith Bool Lia.
From Stdlib Require Import Sorting.Sorted Sorting.Permutation.
From Stdlib Require Import DecimalString DecimalPos DecimalZ.
From Stdlib Require Import Floats.PrimFloat Floats.FloatOps Floats.SpecFloat.
From Stdlib Require Import Numbers.Cyclic.Int63.Uint63.
Import ListNotations.

Local Open Scope string_scope.
Local Open Scope Z_scope.

(* ================================================================== *)
(** * Text: case mapping and the LIKE operator *)
(* ================================================================== *)

Module Text.

(** Code point of a character. *)
Definition code (c : ascii) : N := N_of_ascii c.

Definition is_ascii (c : ascii) : bool := (code c <? 128)%N.

(** [A]..[Z]. *)
Definition ascii_upper (c : ascii) : bool :=
  ((65 <=? code c) && (code c <=? 90))%N.

(** Upper-case letters of U+0080..U+00FF: U+00C0..U+00DE except the
    multiplication sign U+00D7. *)
Definition latin1_upper (c : ascii) : bool :=
  ((192 <=? code c) && (code c <=? 222) && negb (code c =? 215))%N.

Definition shift32 (c : ascii) : ascii := ascii_of_N (code c + 32).

(** The engine's [sqlite3Tolower]: ASCII letters only. *)
Definition sqlite_tolower (c : ascii) : ascii :=
  if ascii_upper c then shift32 c else c.

(** One character of Python's [str.lower]. *)
Definition py_lower_char (c : ascii) : ascii :=
  if ascii_upper c || latin1_upper c then shift32 c else c.

Fixpoint map_string (f : ascii -> ascii) (s : string) : string :=
  match s with
  | EmptyString => EmptyString
  | String c s' => String (f c) (map_string f s')
  end.

(** Python: [s.lower()]. *)
Definition py_lower (s : string) : string := map_string py_lower_char s.

(** SQL: [LOWER(s)]. *)
Definition sql_lower (s : string) : string := map_string sqlite_tolower s.

(** Character comparison of the LIKE operator: equal code points, or two
    ASCII characters that agree after [sqlite3Tolower]. *)
Definition like_char (c c2 : ascii) : bool :=
  Ascii.eqb c c2
  || (is_ascii c && is_ascii c2
      && Ascii.eqb (sqlite_tolower c) (sqlite_tolower c2)).

Definition percent : ascii := "%"%char.
Definition underscore : ascii := "_"%char.

(** The engine's [patternCompare] for LIKE without ESCAPE clause, on the
    characters of its operands: [%] matches any run of characters, [_]
    exactly one character. *)
Fixpoint pattern_compare (pattern : string) : string -> bool :=
  match pattern with
  | EmptyString =>
      fun text => match text with EmptyString => true | _ => false end
  | String p rest =>
      if Ascii.eqb p percent then
        fix skip (text : string) : bool :=
          pattern_compare rest text
          || match text with
             | EmptyString => false
             | String _ text' => skip text'
             end
      else if Ascii.eqb p underscore then
        fun text =>
          match text with
          | EmptyString => false
          | String _ text' => pattern_compare rest text'
          end
      else
        fun text =>
          match text with
          | EmptyString => false
          | String c text' => like_char p c && pattern_compare rest text'
          end
  end.

Definition nul : ascii := "000"%char.

(** A text as the C functions of the engine read it: up to its first
    U+0000. *)
Fixpoint c_string (s : string) : string :=
  match s with
  | EmptyString => EmptyString
  | String c s' => if Ascii.eqb c nul then EmptyString
                   else String c (c_string s')
  end.

(** SQL: [text LIKE pattern].  Both operands are read as C strings. *)
Definition like (pattern text : string) : bool :=
  pattern_compare (c_string pattern) (c_string text).

(** Python: [f"%{q}%"]. *)
Definition wrap_percent (q : string) : string :=
  String percent (q ++ String percent EmptyString).

(** Python: [f"{n}"] for an int. *)
Definition str_of_int (n : Z) : string :=
  NilZero.string_of_int (Z.to_int n).

(** Literal containment: [needle] occurs in [hay] as a contiguous run. *)
Fixpoint starts_with (needle hay : string) : bool :=
  match needle, hay with
  | EmptyString, _ => true
  | String _ _, EmptyString => false
  | String a n', String b h' => Ascii.eqb a b && starts_with n' h'
  end.

Fixpoint contains (needle hay : string) : bool :=
  starts_with needle hay
  || match hay with
     | EmptyString => false
     | String _ h' => contains needle h'
     end.

(** Containment up to letter case, both sides folded by [str.lower]. *)
Definition contains_nocase (needle hay : string) : bool :=
  contains (py_lower needle) (py_lower hay).


Fixpoint all_chars (p : ascii -> bool) (s : string) : bool :=
  match s with
  | EmptyString => true
  | String c s' => p c && all_chars p s'
  end.


End Text.

(* ================================================================== *)
(** * The storage engine: table [books] and the statements of [main.py] *)
(* ================================================================== *)

Module Sqlite.

(** A row of
    [books(id INTEGER PRIMARY KEY AUTOINCREMENT, title TEXT, author TEXT,
           year INTEGER, genre TEXT, read BOOLEAN)];
    a Python [bool] is bound as the integer 0 or 1. *)
Record row : Type := Row {
  id : Z;
  title : string;
  author : string;
  year : Z;
  genre : string;
  read : Z
}.

(** The backing file: the rows in rowid order and the AUTOINCREMENT
    counter kept in [sqlite_sequence] (largest rowid ever handed out). *)
Record database : Type := Database {
  books : list row;
  sequence : Z
}.

Definition empty : database := {| books := []; sequence := 0 |}.

(** The largest rowid. *)
Definition max_rowid : Z := 2 ^ 63 - 1.

(** An integer that a SQLite INTEGER can hold. *)
Definition fits_integer (n : Z) : bool :=
  (- 2 ^ 63 <=? n) && (n <=? max_rowid).

(** The SQL texts of [main.py] with their bound parameters. *)
Inductive statement : Type :=
| InsertBook (title author : string) (year : Z) (genre : string)
             (read_status : bool)
| SelectBooks
| SelectTitleLike (pattern : string)
| SelectAuthorLike (pattern : string)
| DeleteBook (book_id : Z)
| CountBooks
| CountRead
| TopGenres
| TopAuthors
| Decades.

(** What [cursor.fetchall()] yields, by shape of the statement. *)
Inductive resultset : Type :=
| BookRows (rs : list row)
| CountRow (n : Z)
| TextCounts (gs : list (string * Z))
| IntCounts (gs : list (Z * Z))
| NoRows.

Definition is_empty (r : resultset) : bool :=
  match r with
  | BookRows [] | TextCounts [] | IntCounts [] | NoRows => true
  | _ => false
  end.

(** ** ORDER BY: the sorter, as an insertion sort *)

(** [before x y] tells whether [x] is put in front of [y] when the two
    meet.  With a test that holds for equal keys the sort keeps rows of
    equal key in their order (ascending ORDER BY on rows in rowid order);
    with a strict test it reverses them, which is the order the engine
    gives equal counts under ORDER BY count DESC. *)
Section Sorter.
Context {A : Type} (before : A -> A -> bool).

Fixpoint insert (x : A) (l : list A) : list A :=
  match l with
  | [] => [x]
  | y :: l' => if before x y then x :: y :: l' else y :: insert x l'
  end.

Definition order_by (l : list A) : list A := fold_right insert [] l.
End Sorter.

(** ** GROUP BY key with COUNT( * ): one group per key, in key order *)

Section Grouping.
Context {K : Type} (cmp : K -> K -> comparison).

Fixpoint bump (k : K) (groups : list (K * Z)) : list (K * Z) :=
  match groups with
  | [] => [(k, 1)]
  | (k', n) :: rest =>
      match cmp k k' with
      | Eq => (k', n + 1) :: rest
      | Lt => (k, 1) :: groups
      | Gt => (k', n) :: bump k rest
      end
  end.

Definition group_count (keys : list K) : list (K * Z) :=
  fold_right bump [] keys.
End Grouping.

Definition by_title (a b : row) : bool := String.leb (title a) (title b).
Definition by_author (a b : row) : bool := String.leb (author a) (author b).
Definition by_count_desc {K : Type} (a b : K * Z) : bool := snd b <? snd a.
Definition by_key (a b : Z * Z) : bool := fst a <=? fst b.

(** SQL: [(year / 10) * 10]; integer division truncates toward zero. *)
Definition decade (y : Z) : Z := Z.quot y 10 * 10.

(** ** Connections *)

(** An open connection: its view of the database, which reaches the file
    only on [commit], and [sqlite3_last_insert_rowid]. *)
Record connection : Type := Connection {
  live : database;
  last_insert_rowid : Z
}.

Definition connect (file : database) : connection :=
  {| live := file; last_insert_rowid := 0 |}.

Definition commit (c : connection) : database := live c.

Definition max_id (rs : list row) : Z :=
  fold_right (fun r m => Z.max (id r) m) 0 rs.

(** AUTOINCREMENT: one more than the largest rowid that ever existed. *)
Definition next_rowid (d : database) : Z :=
  Z.max (sequence d) (max_id (books d)) + 1.

(** The rows a statement selects; none for INSERT and DELETE. *)
Definition select (q : statement) (d : database) : resultset :=
  match q with
  | InsertBook _ _ _ _ _ => NoRows
  | DeleteBook _ => NoRows
  | SelectBooks =>
      BookRows (order_by by_title (books d))
  | SelectTitleLike p =>
      BookRows
        (order_by by_title
           (filter (fun r => Text.like p (Text.sql_lower (title r)))
                   (books d)))
  | SelectAuthorLike p =>
      BookRows
        (order_by by_author
           (filter (fun r => Text.like p (Text.sql_lower (author r)))
                   (books d)))
  | CountBooks =>
      CountRow (Z.of_nat (List.length (books d)))
  | CountRead =>
      CountRow (Z.of_nat (List.length (filter (fun r => read r =? 1)
                                              (books d))))
  | TopGenres =>
      TextCounts
        (firstn 5
           (order_by by_count_desc
              (group_count String.compare (map genre (books d)))))
  | TopAuthors =>
      TextCounts
        (firstn 5
           (order_by by_count_desc
              (group_count String.compare (map author (books d)))))
  | Decades =>
      IntCounts
        (order_by by_key
           (group_count Z.compare
              (map (fun r => decade (year r)) (books d))))
  end.

(** The engine running a statement whose parameters are bound: the rows
    and the connection afterwards, or [None] for the engine's own error
    (SQLITE_FULL when the rowids are used up). *)
Definition execute (q : statement) (c : connection)
  : option (resultset * connection) :=
  let d := live c in
  match q with
  | InsertBook t a y g r =>
      let i := next_rowid d in
      if i <=? max_rowid then
        let new := {| id := i; title := t; author := a; year := y;
                      genre := g; read := Z.b2z r |} in
        Some (NoRows,
              {| live := {| books := (books d ++ [new])%list;
                            sequence := i |};
                 last_insert_rowid := i |})
      else None
  | DeleteBook i =>
      Some (NoRows,
            {| live := {| books := filter (fun r => negb (id r =? i))
                                          (books d);
                          sequence := sequence d |};
               last_insert_rowid := last_insert_rowid c |})
  | _ => Some (select q d, c)
  end.

(** The integer parameters of a statement fit a SQLite INTEGER. *)
Definition bindable (q : statement) : bool :=
  match q with
  | InsertBook _ _ y _ _ => fits_integer y
  | DeleteBook i => fits_integer i
  | _ => true
  end.

End Sqlite.

Import Sqlite.

(* ================================================================== *)
(** * The store functions of [main.py] *)
(* ================================================================== *)

(** The exceptions that this code can meet. *)
Inductive exn : Type :=
| SqliteError          (* sqlite3.Error *)
| OverflowError
| TypeError
| IndexError
| ZeroDivisionError.

(** A Python computation returns a value or raises. *)
Inductive outcome (A : Type) : Type :=
| Returned (a : A)
| Raised (e : exn).
Arguments Returned {A} a.
Arguments Raised {A} e.

(** The world a call runs in: the backing file [DB_FILE] and the schedule of
    storage faults, one entry per call of [execute_query] (none left: no
    fault). *)
Record world : Type := World {
  file : database;
  faults : list bool
}.

(** Computations that read and update the world and may raise. *)
Definition M (A : Type) : Type := world -> outcome A * world.

Definition ret {A : Type} (a : A) : M A := fun w => (Returned a, w).

Definition raise {A : Type} (e : exn) : M A := fun w => (Raised e, w).

Definition bind {A B : Type} (m : M A) (k : A -> M B) : M B :=
  fun w =>
    match m w with
    | (Returned a, w') => k a w'
    | (Raised e, w') => (Raised e, w')
    end.

Notation "x <- m ;; k" := (bind m (fun x => k))
  (at level 61, m at next level, right associativity).

(** [try: body except sqlite3.Error: handler]. *)
Definition except_sqlite_error {A : Type} (body handler : M A) : M A :=
  fun w =>
    match body w with
    | (Raised SqliteError, w') => handler w'
    | done => done
    end.

Definition next_fault : M bool :=
  fun w =>
    match faults w with
    | [] => (Returned false, w)
    | f :: rest => (Returned f, {| file := file w; faults := rest |})
    end.

(** What [execute_query] hands back: [None], [cursor.lastrowid], or the
    list fetched. *)
Inductive pyresult : Type :=
| PyNone
| PyInt (n : Z)
| PyList (rows : resultset).

(** CREATE TABLE IF NOT EXISTS on the file found at start-up. *)
Definition initialize_database (found : option database) : database :=
  match found with
  | Some d => d
  | None => Sqlite.empty
  end.

(** [cursor.execute(query, parameters)]: the driver binds the parameters,
    raising [OverflowError] for an int out of range, then the engine runs
    the statement. *)
Definition cursor_execute (query : statement) (conn : connection)
  : outcome (resultset * connection) :=
  if bindable query then
    match execute query conn with
    | Some done => Returned done
    | None => Raised SqliteError
    end
  else Raised OverflowError.

(** Lines 34-47, the body of the [try]: connect, execute, then either
    fetch (the connection is closed without commit, so its changes are
    dropped) or commit and read [lastrowid].  A scheduled storage fault
    strikes first. *)
Definition try_query (query : statement) (fetchall : bool) : M pyresult :=
  fault <- next_fault ;;
  if fault : bool then raise SqliteError
  else fun w =>
    match cursor_execute query (connect (file w)) with
    | Raised e => (Raised e, w)
    | Returned (rows, conn') =>
        if fetchall then (Returned (PyList rows), w)
        else (Returned (PyInt (last_insert_rowid conn')),
              {| file := commit conn'; faults := faults w |})
    end.

(** Lines 31-50. *)
Definition execute_query (query : statement) (fetchall : bool) : M pyresult :=
  except_sqlite_error (try_query query fetchall)
                      (ret PyNone).   (* st.error(...); return None *)

(** Python: [x is not None]. *)
Definition is_not_none (x : pyresult) : bool :=
  match x with
  | PyNone => false
  | _ => true
  end.

(** Python truth value. *)
Definition truthy (x : pyresult) : bool :=
  match x with
  | PyNone => false
  | PyInt n => negb (n =? 0)
  | PyList rows => negb (is_empty rows)
  end.

(** Python: [bool(n)]. *)
Definition py_bool (n : Z) : bool := negb (n =? 0).

Definition add_book_to_db (title author : string) (year : Z) (genre : string)
  (read_status : bool) : M bool :=
  book_id <- execute_query (InsertBook title author year genre read_status)
                           false ;;
  ret (is_not_none book_id).

(** The dictionary built for one fetched row. *)
Record book : Type := Book {
  book_id : Z;
  book_title : string;
  book_author : string;
  book_year : Z;
  book_genre : string;
  book_read : bool
}.

Definition to_book (r : row) : book :=
  {| book_id := id r;
     book_title := title r;
     book_author := author r;
     book_year := year r;
     book_genre := genre r;
     book_read := py_bool (read r) |}.

(** [for book in books_data] with [book[0]] to [book[5]]: the rows of a
    fetched list of book rows.  [None] and an int cannot be iterated
    ([TypeError]); a list of another shape than book rows, which no
    statement sent for books gives, is taken to raise [TypeError] too. *)
Definition fetched_rows (x : pyresult) : M (list row) :=
  match x with
  | PyList (BookRows rs) => ret rs
  | PyList other => if is_empty other then ret [] else raise TypeError
  | _ => raise TypeError
  end.

Definition get_all_books : M (list book) :=
  books_data <- execute_query SelectBooks true ;;
  if negb (truthy books_data) then ret []
  else
    rows <- fetched_rows books_data ;;
    ret (map to_book rows).

Definition search_books (search_type search_query : string) : M (list book) :=
  let parameters := Text.wrap_percent (Text.py_lower search_query) in
  let query :=
    if String.eqb search_type "Title" then SelectTitleLike parameters
    else SelectAuthorLike parameters in
  books_data <- execute_query query true ;;
  if negb (truthy books_data) then ret []
  else
    rows <- fetched_rows books_data ;;
    ret (map to_book rows).

Definition delete_book (book_id : Z) : M bool :=
  result <- execute_query (DeleteBook book_id) false ;;
  ret (is_not_none result).

(** Python dictionaries with text keys, in insertion order. *)
Definition dict : Type := list (string * Z).

Fixpoint dict_set (k : string) (v : Z) (d : dict) : dict :=
  match d with
  | [] => [(k, v)]
  | (k', v') :: d' =>
      if String.eqb k k' then (k', v) :: d' else (k', v') :: dict_set k v d'
  end.

Fixpoint dict_get (k : string) (d : dict) : option Z :=
  match d with
  | [] => None
  | (k', v) :: d' => if String.eqb k k' then Some v else dict_get k d'
  end.

(** [{key(k): count for k, count in data}]. *)
Definition comprehension {K : Type} (key : K -> string) (data : list (K * Z))
  : dict :=
  fold_left (fun d kc => dict_set (key (fst kc)) (snd kc) d) data [].

(** [result[0][0]], used as a number: [None] and an int cannot be
    subscripted ([TypeError]), an empty list has no first row
    ([IndexError]), and a first cell that is a text does not compare with
    [0] ([TypeError]). *)
Definition first_cell (x : pyresult) : M Z :=
  match x with
  | PyList (CountRow n) => ret n
  | PyList (BookRows (r :: _)) => ret (id r)
  | PyList (IntCounts ((d, _) :: _)) => ret d
  | PyList (TextCounts (_ :: _)) => raise TypeError
  | PyList _ => raise IndexError
  | _ => raise TypeError
  end.

(** [for genre, count in genres_data], the keys being texts: [None] and
    an int cannot be iterated ([TypeError]); a list of another shape than
    pairs of text and count, which the statements sent here do not give,
    is taken to raise [TypeError] too. *)
Definition text_counts (x : pyresult) : M (list (string * Z)) :=
  match x with
  | PyList (TextCounts gs) => ret gs
  | PyList other => if is_empty other then ret [] else raise TypeError
  | _ => raise TypeError
  end.

(** [for decade, count in decades_data], the keys being ints. *)
Definition int_counts (x : pyresult) : M (list (Z * Z)) :=
  match x with
  | PyList (IntCounts gs) => ret gs
  | PyList other => if is_empty other then ret [] else raise TypeError
  | _ => raise TypeError
  end.

(** A Python number: an [int] or a [float]. *)
Inductive number : Type :=
| IntNumber (n : Z)
| FloatNumber (x : float).

(** The float nearest to an int of 63 bits at most; exact for
    [|n| < 2^53]. *)
Definition float_of_int (n : Z) : float :=
  if n <? 0 then PrimFloat.opp (PrimFloat.of_uint63 (Uint63.of_Z (- n)))
  else PrimFloat.of_uint63 (Uint63.of_Z n).

(** Python: [a / b] on ints, for [|a|] and [|b|] below [2^53]: both convert
    exactly and the quotient is rounded once, which is the correctly
    rounded quotient that Python computes.  The operands here are counts
    of rows. *)
Definition true_divide (a b : Z) : M float :=
  if b =? 0 then raise ZeroDivisionError
  else ret (PrimFloat.div (float_of_int a) (float_of_int b)).

Record statistics : Type := Statistics {
  total_books : Z;
  read_books : Z;
  read_percentage : number;
  genres : dict;
  authors : dict;
  decades : dict
}.

Definition decade_label (d : Z) : string := Text.str_of_int d ++ "s".

Definition get_statistics : M statistics :=
  total_result <- execute_query CountBooks true ;;
  total_books <- (if truthy total_result then first_cell total_result
                  else ret 0) ;;
  read_result <- execute_query CountRead true ;;
  read_books <- (if truthy read_result then first_cell read_result
                 else ret 0) ;;
  read_percentage <-
    (if total_books >? 0 then
       ratio <- true_divide read_books total_books ;;
       ret (FloatNumber (PrimFloat.mul ratio (float_of_int 100)))
     else ret (IntNumber 0)) ;;
  genres_data <- execute_query TopGenres true ;;
  genres <- (if truthy genres_data then
               data <- text_counts genres_data ;;
               ret (comprehension (fun g => g) data)
             else ret []) ;;
  authors_data <- execute_query TopAuthors true ;;
  authors <- (if truthy authors_data then
                data <- text_counts authors_data ;;
                ret (comprehension (fun a => a) data)
              else ret []) ;;
  decades_data <- execute_query Decades true ;;
  decades <- (if truthy decades_data then
                data <- int_counts decades_data ;;
                ret (comprehension decade_label data)
              else ret []) ;;
  ret {| total_books := total_books;
         read_books := read_books;
         read_percentage := read_percentage;
         genres := genres;
         authors := authors;
         decades := decades |}.

(** ** Sequences of calls made by the display layer *)

Inductive call : Type :=
| CallAdd (title author : string) (year : Z) (genre : string)
          (read_status : bool)
| CallList
| CallSearch (search_type search_query : string)
| CallDelete (book_id : Z)
| CallStatistics.

Definition run_call (c : call) : M unit :=
  match c with
  | CallAdd t a y g r => _ <- add_book_to_db t a y g r ;; ret tt
  | CallList => _ <- get_all_books ;; ret tt
  | CallSearch ty q => _ <- search_books ty q ;; ret tt
  | CallDelete i => _ <- delete_book i ;; ret tt
  | CallStatistics => _ <- get_statistics ;; ret tt
  end.


(** The world after a sequence of calls.  A call that raises ends the run
    of the script it belongs to; the next call comes from a later run and
    finds the world that the failed one left. *)
Fixpoint run_calls (cs : list call) (w : world) : world :=
  match cs with
  | [] => w
  | c :: cs' => run_calls cs' (snd (run_call c w))
  end.


(** A file as the engine keeps it: rowids positive, increasing, and not
    above the AUTOINCREMENT counter, which is not above the largest
    rowid. *)
Definition well_formed (d : database) : Prop :=
  0 <= sequence d <= max_rowid
  /\ StronglySorted Z.lt (map id (books d))
  /\ Forall (fun r => 0 < id r <= sequence d) (books d).

(** An integer that the driver binds. *)
Definition sql_integer (n : Z) : Prop := fits_integer n = true.

(** The engine still has a rowid to hand out. *)
Definition room (d : database) : Prop := next_rowid d <= max_rowid.

Definition quiet (n : nat) (w : world) : Prop :=
  Forall (fun f => f = false) (firstn n (faults w)).

(** ** Vocabulary of the statements below *)

(** Number of rows that satisfy [p]. *)
Definition count_where (p : row -> bool) (rs : list row) : Z :=
  Z.of_nat (List.length (filter p rs)).

(** Number of occurrences of [k] among [keys], equality decided by [cmp]. *)
Definition same {K : Type} (cmp : K -> K -> comparison) (a b : K) : bool :=
  match cmp a b with
  | Eq => true
  | _ => false
  end.

Definition tally {K : Type} (cmp : K -> K -> comparison) (k : K)
  (keys : list K) : Z :=
  Z.of_nat (List.length (filter (same cmp k) keys)).

(** Total count recorded for [k] in a list of groups. *)
Fixpoint weight {K : Type} (cmp : K -> K -> comparison) (k : K)
  (groups : list (K * Z)) : Z :=
  match groups with
  | [] => 0
  | (k', n) :: rest =>
      if same cmp k k' then n + weight cmp k rest else weight cmp k rest
  end.

(** The decade key as the specification words it: [floor(year / 10) * 10]. *)
Definition spec_decade (y : Z) : Z := y / 10 * 10.

(** The world after [n] calls of [execute_query] that left the file alone. *)
Definition skip (n : nat) (w : world) : world :=
  {| file := file w; faults := skipn n (faults w) |}.

(** The [n]-th coming call of [execute_query] meets a storage fault. *)
Definition faulted (n : nat) (w : world) : Prop :=
  nth n (faults w) false = true.

Definition zero_statistics : statistics :=
  {| total_books := 0; read_books := 0; read_percentage := IntNumber 0;
     genres := []; authors := []; decades := [] |}.

(** The column that [search_books] matches and orders by. *)
Definition search_column (search_type : string) : row -> string :=
  if String.eqb search_type "Title" then title else author.

(** The fault flag of the [n]-th coming call of [execute_query]. *)
Definition fault_at (n : nat) (w : world) : bool := nth n (faults w) false.

(** What the [n]-th coming call returns when it fetches the rows of [q]
    from a file that earlier calls left alone. *)
Definition fetched (q : statement) (n : nat) (w : world) : pyresult :=
  if fault_at n w then PyNone else PyList (select q (file w)).

(** Python: [(reads / total) * 100] on ints with [total] not zero. *)
Definition percentage (reads total : Z) : float :=
  PrimFloat.mul (PrimFloat.div (float_of_int reads) (float_of_int total))
                (float_of_int 100).

(** GROUP BY [column], ORDER BY count DESC, LIMIT 5. *)
Definition top_counts (column : row -> string) (rs : list row)
  : list (string * Z) :=
  firstn 5
    (order_by by_count_desc (group_count String.compare (map column rs))).

(** [entry] lists the five most frequent values of [column]: at most five
    distinct keys, each with its exact count, counts descending, and a value
    that is left out is not more frequent than any value listed. *)
Definition top_five_of (column : row -> string) (rs : list row) (entry : dict)
  : Prop :=
  (List.length entry <= 5)%nat
  /\ NoDup (map fst entry)
  /\ StronglySorted (fun a b => snd b <= snd a) entry
  /\ (forall k n, In (k, n) entry ->
        0 < n /\ n = count_where (fun r => String.eqb k (column r)) rs)
  /\ (forall k, In k (map column rs) -> ~ In k (map fst entry) ->
        List.length entry = 5%nat
        /\ forall k' n', In (k', n') entry ->
             count_where (fun r => String.eqb k (column r)) rs <= n').

(** GROUP BY decade, ORDER BY decade. *)
Definition decade_counts (rs : list row) : list (Z * Z) :=
  order_by by_key
    (group_count Z.compare (map (fun r => decade (year r)) rs)).

Definition labelled (g : Z * Z) : string * Z := (decade_label (fst g), snd g).

(** The report of [get_statistics] on a file, by the faults that its five
    queries meet. *)
Definition report (w : world) : statistics :=
  let rs := books (file w) in
  let total := if fault_at 0 w then 0 else Z.of_nat (List.length rs) in
  let reads := if fault_at 1 w then 0
               else count_where (fun r => read r =? 1) rs in
  {| total_books := total;
     read_books := reads;
     read_percentage := if total >? 0 then FloatNumber (percentage reads total)
                        else IntNumber 0;
     genres := if fault_at 2 w then []
               else comprehension (fun g => g) (top_counts genre rs);
     authors := if fault_at 3 w then []
                else comprehension (fun a => a) (top_counts author rs);
     decades := if fault_at 4 w then []
                else comprehension decade_label (decade_counts rs) |}.




(** ORDER BY the searched column. *)
Definition by_column (search_type : string) (a b : row) : bool :=
  String.leb (search_column search_type a) (search_column search_type b).

(** The file after a committed INSERT. *)
Definition inserted (d : database) (t a : string) (y : Z) (g : string)
  (r : bool) : database :=
  {| books :=
       (books d
        ++ [{| id := next_rowid d; title := t; author := a; year := y;
               genre := g; read := Z.b2z r |}])%list;
     sequence := next_rowid d |}.

(** The file after a committed DELETE. *)
Definition deleted (d : database) (i : Z) : database :=
  {| books := filter (fun r => negb (id r =? i)) (books d);
     sequence := sequence d |}.

(** The record that list and search show for a book added with these
    fields under rowid [i]. *)
Definition shown (i : Z) (t a : string) (y : Z) (g : string) (r : bool)
  : book :=
  {| book_id := i; book_title := t; book_author := a; book_year := y;
     book_genre := g; book_read := r |}.


(** A library used in the examples: three books, one id retired. *)
Definition sample_library : database :=
  {| books :=
       [ {| id := 1; title := "The Great Gatsby";
            author := "F. Scott Fitzgerald"; year := 2004;
            genre := "Novel"; read := 1 |};
         {| id := 2; title := "Emma"; author := "Jane Austen"; year := 2003;
            genre := "Novel"; read := 0 |};
         {| id := 4; title := "abc"; author := "Anonymous"; year := 2011;
            genre := "Primer"; read := 0 |} ];
     sequence := 4 |}.

(** Calls that add [n] books of one genre. *)
Definition stock (n : nat) (g : string) : list call :=
  repeat (CallAdd "Untitled" "Anonymous" 2020 g false) n.

(** Seven genres with one to seven books each. *)
Definition seven_genres : list call :=
  (stock 3 "Crime" ++ stock 1 "Atlas" ++ stock 7 "Novel" ++ stock 2 "Drama"
   ++ stock 5 "Poetry" ++ stock 4 "Essay" ++ stock 6 "Travel")%list.

(** Books of the years 1995, 1999, 2001 and 2005. *)
Definition four_years : list call :=
  [ CallAdd "A" "Anonymous" 1995 "Novel" false;
    CallAdd "B" "Anonymous" 1999 "Novel" false;
    CallAdd "C" "Anonymous" 2001 "Novel" true;
    CallAdd "D" "Anonymous" 2005 "Novel" true ].

Definition fresh_world : world := {| file := Sqlite.empty; faults := [] |}.

(** Sum of the values of a dictionary. *)
Definition dict_total (d : dict) : Z :=
  fold_right (fun kv acc => snd kv + acc) 0 d.

(* ================================================================== *)
(** * The display layer: add form, pages and export *)
(* ================================================================== *)

(** Python: [c.isspace()] on U+0000..U+00FF: tab to carriage return, the
    four separators U+001C..U+001F, space, next line U+0085 and no-break
    space U+00A0. *)
Definition py_isspace (c : ascii) : bool :=
  let n := Text.code c in
  (((9 <=? n) && (n <=? 13)) || ((28 <=? n) && (n <=? 32))
   || (n =? 133) || (n =? 160))%N.

Fixpoint lstrip (s : string) : string :=
  match s with
  | EmptyString => EmptyString
  | String c s' => if py_isspace c then lstrip s' else s
  end.

Fixpoint rstrip (s : string) : string :=
  match s with
  | EmptyString => EmptyString
  | String c s' =>
      match rstrip s' with
      | EmptyString => if py_isspace c then EmptyString
                       else String c EmptyString
      | kept => String c kept
      end
  end.

(** Python: [s.strip()]. *)
Definition strip (s : string) : string := rstrip (lstrip s).

(** Python truth value of a [str]. *)
Definition nonempty (s : string) : bool :=
  match s with
  | EmptyString => false
  | String _ _ => true
  end.

(** What the add form tells the user. *)
Inductive add_notice : Type :=
| BookAdded          (* st.success("Book added successfully to database!") *)
| AddFailed          (* st.error("Failed to add book to database.") *)
| FillAllFields.     (* st.error("Please fill in all fields!") *)

(** Lines 203-219: the submitted add form.  [year] is the value of the
    number input, [read_status] the label chosen on the radio. *)
Definition add_book_form (title author : string) (year : Z)
  (genre read_status : string) : M add_notice :=
  if nonempty title && nonempty author && nonempty genre then
    success <- add_book_to_db (strip title) (strip author) year
                              (strip genre) (String.eqb read_status "Yes") ;;
    if success : bool then ret BookAdded else ret AddFailed
  else ret FillAllFields.

(** The bounds of the number input of line 197. *)
Definition in_form_range (year : Z) : Prop := 2000 <= year <= 2100.

(** Python: [f"delete_{book['id']}"] and [f"delete_card_{book['id']}"]. *)
Definition delete_key (b : book) : string :=
  "delete_" ++ Text.str_of_int (book_id b).

Definition delete_card_key (b : book) : string :=
  "delete_card_" ++ Text.str_of_int (book_id b).

(** Line 241: the line written for a search result. *)
Definition book_line (b : book) : string :=
  "**" ++ book_title b ++ "** by " ++ book_author b
  ++ " (" ++ Text.str_of_int (book_year b) ++ ") - " ++ book_genre b
  ++ " - " ++ (if book_read b then "Read" else "Unread").

(** What the search page shows. *)
Inductive search_view : Type :=
| NothingTyped
| NoBooksFound                      (* st.warning("No books found ...") *)
| Matches (count : nat) (entries : list (string * string)).
                                    (* line and delete-button key *)

(** Lines 228-251. *)
Definition search_page (search_type search_query : string) : M search_view :=
  if nonempty search_query then
    results <- search_books search_type search_query ;;
    match results with
    | [] => ret NoBooksFound
    | _ => ret (Matches (List.length results)
                        (map (fun b => (book_line b, delete_key b)) results))
    end
  else ret NothingTyped.

(** A card of the library page: the column it is put in and the key of
    its delete button. *)
Record card : Type := Card {
  card_column : nat;
  card_book : book;
  card_key : string
}.

(** Python: [enumerate(library)] from index [i]. *)
Fixpoint enumerate_from {A : Type} (i : nat) (l : list A) : list (nat * A) :=
  match l with
  | [] => []
  | x :: l' => (i, x) :: enumerate_from (S i) l'
  end.

(** Lines 283-293: [cols[i % 3]] for the [i]-th book. *)
Definition cards (library : list book) : list card :=
  map (fun ib => {| card_column := Nat.modulo (fst ib) 3;
                    card_book := snd ib;
                    card_key := delete_card_key (snd ib) |})
      (enumerate_from 0 library).

(** The books shown in column [k]. *)
Definition column (k : nat) (cs : list card) : list book :=
  map card_book (filter (fun c => Nat.eqb (card_column c) k) cs).

(** What the library page shows. *)
Inductive library_view : Type :=
| EmptyLibrary                      (* st.warning("Your library is empty") *)
| Shelves (shown_cards : list card).

(** Lines 258-300, card tab. *)
Definition library_page : M library_view :=
  library <- get_all_books ;;
  match library with
  | [] => ret EmptyLibrary
  | _ => ret (Shelves (cards library))
  end.

(** Lines 243-248 and 293-298: a pressed delete button. *)
Definition press_delete (b : book) : M bool := delete_book (book_id b).

(** ** Export to JSON *)

(** A dictionary of the export, after [book.pop("id", None)]. *)
Record entry : Type := Entry {
  entry_title : string;
  entry_author : string;
  entry_year : Z;
  entry_genre : string;
  entry_read : bool
}.

Definition pop_id (b : book) : entry :=
  {| entry_title := book_title b;
     entry_author := book_author b;
     entry_year := book_year b;
     entry_genre := book_genre b;
     entry_read := book_read b |}.

Definition quote : ascii := "034"%char.
Definition backslash : ascii := "092"%char.
Definition newline : string := String "010" EmptyString.

Definition hex_digit (n : N) : ascii :=
  if (n <? 10)%N then ascii_of_N (48 + n) else ascii_of_N (87 + n).

(** [json.dump] with [ensure_ascii]: one character of a string. *)
Definition json_escape_char (c : ascii) : string :=
  let n := Text.code c in
  if Ascii.eqb c quote then String backslash (String quote EmptyString)
  else if Ascii.eqb c backslash
       then String backslash (String backslash EmptyString)
  else if (n =? 10)%N then String backslash "n"
  else if (n =? 13)%N then String backslash "r"
  else if (n =? 9)%N then String backslash "t"
  else if (n =? 8)%N then String backslash "b"
  else if (n =? 12)%N then String backslash "f"
  else if ((32 <=? n) && (n <=? 126))%N then String c EmptyString
  else String backslash
         ("u00" ++ String (hex_digit (n / 16))
                     (String (hex_digit (n mod 16)) EmptyString)).

Fixpoint json_escape (s : string) : string :=
  match s with
  | EmptyString => EmptyString
  | String c s' => json_escape_char c ++ json_escape s'
  end.

Definition json_string (s : string) : string :=
  String quote (json_escape s ++ String quote EmptyString).

Definition json_bool (b : bool) : string := if b then "true" else "false".

Definition json_key (k : string) : string := json_string k ++ ": ".

(** Line breaks and indentation of [indent=4] at nesting depth 1 and 2. *)
Definition indent1 : string := newline ++ "    ".
Definition indent2 : string := newline ++ "        ".

Definition json_entry (e : entry) : string :=
  "{" ++ indent2 ++ json_key "title" ++ json_string (entry_title e)
  ++ "," ++ indent2 ++ json_key "author" ++ json_string (entry_author e)
  ++ "," ++ indent2 ++ json_key "year" ++ Text.str_of_int (entry_year e)
  ++ "," ++ indent2 ++ json_key "genre" ++ json_string (entry_genre e)
  ++ "," ++ indent2 ++ json_key "read" ++ json_bool (entry_read e)
  ++ indent1 ++ "}".

Fixpoint json_items (e : entry) (rest : list entry) : string :=
  match rest with
  | [] => json_entry e
  | e' :: rest' => json_entry e ++ "," ++ indent1 ++ json_items e' rest'
  end.

(** Python: [json.dump(library, f, indent=4)], the text written. *)
Definition json_dump (library : list entry) : string :=
  match library with
  | [] => "[]"
  | e :: rest => "[" ++ indent1 ++ json_items e rest ++ newline ++ "]"
  end.

(** What the export button leads to: the text written to
    [library_export.json] and the number of books announced, or the
    failure notice. *)
Inductive export_outcome : Type :=
| Exported (text : string) (count : nat)
| ExportFailed.

(** Lines 385-400.  [writable] tells whether opening and writing the file
    goes through. *)
Definition export_to_json (writable : bool) : M export_outcome :=
  library <- get_all_books ;;
  let library := map pop_id library in
  if writable then ret (Exported (json_dump library) (List.length library))
  else ret ExportFailed.

Definition first_char (s : string) : option ascii :=
  match s with
  | EmptyString => None
  | String c _ => Some c
  end.

Fixpoint last_char (s : string) : option ascii :=
  match s with
  | EmptyString => None
  | String c EmptyString => Some c
  | String _ s' => last_char s'
  end.

(** No white space at either end. *)
Definition trimmed (s : string) : Prop :=
  (forall c, first_char s = Some c -> py_isspace c = false)
  /\ (forall c, last_char s = Some c -> py_isspace c = false).

(** Only white space. *)
Definition blank (s : string) : bool := Text.all_chars py_isspace s.

(** ** Sessions at the display *)

(** What a user can do on the pages. *)
Inductive action : Type :=
| Submit (title author : string) (year : Z) (genre read_status : string)
| Press (b : book)
| OpenLibrary
| OpenSearch (search_type search_query : string)
| OpenStatistics
| ExportJson (writable : bool).

Definition perform (a : action) : M unit :=
  match a with
  | Submit t au y g rs => _ <- add_book_form t au y g rs ;; ret tt
  | Press b => _ <- press_delete b ;; ret tt
  | OpenLibrary => _ <- library_page ;; ret tt
  | OpenSearch ty q => _ <- search_page ty q ;; ret tt
  | OpenStatistics => _ <- get_statistics ;; ret tt
  | ExportJson writable => _ <- export_to_json writable ;; ret tt
  end.

(** The world after a sequence of actions, one run of the script each. *)
Fixpoint session (actions : list action) (w : world) : world :=
  match actions with
  | [] => w
  | a :: rest => session rest (snd (perform a w))
  end.

(** The year of a submission is one the number input can give. *)
Definition from_the_form (a : action) : Prop :=
  match a with
  | Submit _ _ y _ _ => in_form_range y
  | _ => True
  end.

Definition years_in_form_range (d : database) : Prop :=
  Forall (fun r => in_form_range (year r)) (books d).

(** Value of a lower-case hexadecimal digit. *)
Definition hex_value (c : ascii) : N :=
  let n := Text.code c in
  if (n <? 58)%N then (n - 48)%N else (n - 87)%N.

(** Reads one escaped character back from the front of a text written by
    [json_escape]; [None] at an unescaped quote or at the end. *)
Definition json_unescape_char (s : string) : option (ascii * string) :=
  match s with
  | EmptyString => None
  | String c rest =>
      if Ascii.eqb c quote then None
      else if Ascii.eqb c backslash then
        match rest with
        | EmptyString => None
        | String d rest' =>
            if Ascii.eqb d "n" then Some ("010"%char, rest')
            else if Ascii.eqb d "r" then Some ("013"%char, rest')
            else if Ascii.eqb d "t" then Some ("009"%char, rest')
            else if Ascii.eqb d "b" then Some ("008"%char, rest')
            else if Ascii.eqb d "f" then Some ("012"%char, rest')
            else if Ascii.eqb d "u" then
              match rest' with
              | String _ (String _ (String h (String l rest''))) =>
                  Some (ascii_of_N (16 * hex_value h + hex_value l), rest'')
              | _ => None
              end
            else Some (d, rest')
        end
      else Some (c, rest)
  end.

(** A character of a decimal numeral. *)
Definition numeral_char (c : ascii) : bool :=
  let n := Text.code c in
  ((48 <=? n) && (n <=? 57) || (n =? 45))%N.

(** A character that every text encoding reads the same way: printable
    ASCII or the line feed. *)
Definition portable_char (c : ascii) : bool :=
  let n := Text.code c in
  ((32 <=? n) && (n <=? 126) || (n =? 10))%N.

(** ** Backup of the database file *)

(** The reading of the clock that [datetime.now()] returns. *)
Record clock : Type := Clock {
  clock_year : N;
  clock_month : N;
  clock_day : N;
  clock_hour : N;
  clock_minute : N;
  clock_second : N
}.

Definition valid_clock (t : clock) : Prop :=
  (1000 <= clock_year t <= 9999 /\ 1 <= clock_month t <= 12
   /\ 1 <= clock_day t <= 31 /\ clock_hour t <= 23
   /\ clock_minute t <= 59 /\ clock_second t <= 59)%N.

Definition digit (n : N) : ascii := ascii_of_N (48 + n mod 10).

(** Two and four decimal digits, zero-filled. *)
Definition pad2 (n : N) : string :=
  String (digit (n / 10)) (String (digit n) EmptyString).

Definition pad4 (n : N) : string :=
  String (digit (n / 1000)) (String (digit (n / 100)) (pad2 n)).

(** Python: [now.strftime("%Y%m%d_%H%M%S")]. *)
Definition strftime (t : clock) : string :=
  pad4 (clock_year t) ++ pad2 (clock_month t) ++ pad2 (clock_day t) ++ "_"
  ++ pad2 (clock_hour t) ++ pad2 (clock_minute t) ++ pad2 (clock_second t).

(** Python: [f"{backup_dir}/library_backup_{timestamp}.db"]. *)
Definition backup_file (t : clock) : string :=
  "backups/library_backup_" ++ strftime t ++ ".db".

(** The files of the directory [backups], by path. *)
Definition directory : Type := list (string * database).

Fixpoint write_file (path : string) (content : database) (dir : directory)
  : directory :=
  match dir with
  | [] => [(path, content)]
  | (p, c) :: dir' =>
      if String.eqb path p then (p, content) :: dir'
      else (p, c) :: write_file path content dir'
  end.

Fixpoint read_file (path : string) (dir : directory) : option database :=
  match dir with
  | [] => None
  | (p, c) :: dir' => if String.eqb path p then Some c else read_file path dir'
  end.

Inductive backup_notice : Type :=
| BackedUp (path : string)
| BackupFailed.

(** Lines 367-382.  [backups] is [None] while the directory does not
    exist; [copied] tells whether [shutil.copy2] goes through (a copy that
    fails is taken to leave the directory as it was). *)
Definition backup_database (now : clock) (copied : bool)
  (library : database) (backups : option directory)
  : backup_notice * option directory :=
  let dir := match backups with
             | Some files => files
             | None => []                      (* os.makedirs(backup_dir) *)
             end in
  let backup_file := backup_file now in
  if copied then (BackedUp backup_file,
                  Some (write_file backup_file library dir))
  else (BackupFailed, Some dir).

Definition files_of (backups : option directory) : directory :=
  match backups with
  | Some files => files
  | None => []
  end.


(** The statements that only read: the SELECTs. *)
Definition reads (q : statement) : bool :=
  match q with
  | InsertBook _ _ _ _ _ | DeleteBook _ => false
  | _ => true
  end.

(** The rows that the statement of [search_books] selects, in its order. *)
Definition selected (search_type search_query : string) (d : database)
  : list row :=
  order_by (by_column search_type)
    (filter (fun r =>
               Text.like (Text.wrap_percent (Text.py_lower search_query))
                         (Text.sql_lower (search_column search_type r)))
            (books d)).

(** The rows of the table in the order of [get_all_books]. *)
Definition listed (d : database) : list row := order_by by_title (books d).

(** A library whose rowids are used up. *)
Definition full_library : database :=
  {| books := [{| id := max_rowid; title := "Last"; author := "Anonymous";
                  year := 2024; genre := "Novel"; read := 0 |}];
     sequence := max_rowid |}.

(* ================================================================== *)
(** * Properties of the engine primitives *)
(* ================================================================== *)

Lemma in_skipn {A : Type} (n : nat) (l : list A) (x : A) :
  In x (skipn n l) -> In x l.
Proof.
  intros H. rewrite <- (firstn_skipn n l). apply in_or_app. now right.
Qed.

Lemma in_firstn {A : Type} (n : nat) (l : list A) (x : A) :
  In x (firstn n l) -> In x l.
Proof.
  intros H. rewrite <- (firstn_skipn n l). apply in_or_app. now left.
Qed.

(** ** The sorter *)

Section SorterFacts.
Context {A : Type} (before : A -> A -> bool) (R : A -> A -> Prop).
Hypothesis before_R : forall a b, before a b = true -> R a b.
Hypothesis not_before_R : forall a b, before a b = false -> R b a.
Hypothesis R_trans : forall a b c, R a b -> R b c -> R a c.

Lemma insert_perm (x : A) (l : list A) :
  Permutation (x :: l) (insert before x l).
Proof.
  induction l as [|y l IH]; simpl; [reflexivity|].
  destruct (before x y); [reflexivity|].
  etransitivity; [apply perm_swap|]. now constructor.
Qed.

Lemma order_by_perm (l : list A) : Permutation l (order_by before l).
Proof.
  induction l as [|x l IH]; simpl; [constructor|].
  etransitivity; [|apply insert_perm]. now constructor.
Qed.

Lemma insert_sorted (x : A) (l : list A) :
  StronglySorted R l -> StronglySorted R (insert before x l).
Proof.
  induction 1 as [|y l Hl IH Hy]; simpl.
  - repeat constructor.
  - destruct (before x y) eqn:E.
    + constructor; [now constructor|].
      constructor; [now apply before_R|].
      eapply Forall_impl; [|exact Hy].
      intros z Hz. eapply R_trans; eauto.
    + constructor; [exact IH|].
      eapply Permutation_Forall; [apply insert_perm|].
      constructor; [now apply not_before_R|exact Hy].
Qed.

Lemma order_by_sorted_by (l : list A) : StronglySorted R (order_by before l).
Proof.
  induction l as [|x l IH]; simpl; [constructor|].
  now apply insert_sorted.
Qed.

Lemma order_by_in (x : A) (l : list A) : In x (order_by before l) <-> In x l.
Proof.
  split; apply Permutation_in;
    [symmetry|]; apply order_by_perm.
Qed.

Lemma order_by_length (l : list A) :
  List.length (order_by before l) = List.length l.
Proof. symmetry. apply Permutation_length, order_by_perm. Qed.

(** LIMIT n after ORDER BY: whatever is cut off ranks no higher than
    whatever is kept. *)
Lemma limit_keeps_best (n : nat) (l : list A) (kept cut : A) :
  StronglySorted R l ->
  In kept (firstn n l) -> In cut (skipn n l) -> R kept cut.
Proof.
  intros Hs. revert n.
  induction Hs as [|y l Hl IH Hy]; intros n Hk Hc.
  - destruct n; simpl in *; contradiction.
  - destruct n as [|n]; simpl in *; [contradiction|].
    destruct Hk as [<-|Hk].
    + rewrite Forall_forall in Hy. apply Hy.
      eapply in_skipn. exact Hc.
    + eapply IH; eauto.
Qed.
End SorterFacts.

(** A test that is total and transitive sorts by itself. *)
Lemma order_by_sorted {A : Type} (le : A -> A -> bool)
  (le_total : forall a b, le a b = true \/ le b a = true)
  (le_trans : forall a b c, le a b = true -> le b c = true -> le a c = true)
  (l : list A) :
  StronglySorted (fun a b => le a b = true) (order_by le l).
Proof.
  apply order_by_sorted_by.
  - auto.
  - intros a b H. destruct (le_total a b) as [H'|H']; [congruence|exact H'].
  - exact le_trans.
Qed.

(** ** Grouping *)

Section GroupingFacts.
Context {K : Type} (cmp : K -> K -> comparison).
Hypothesis cmp_eq : forall a b, cmp a b = Eq <-> a = b.
Hypothesis cmp_antisym : forall a b, cmp a b = CompOpp (cmp b a).
Hypothesis cmp_trans :
  forall a b c, cmp a b = Lt -> cmp b c = Lt -> cmp a c = Lt.

Let ltK (a b : K) : Prop := cmp a b = Lt.

Lemma same_true (a b : K) : same cmp a b = true <-> a = b.
Proof.
  unfold same. rewrite <- cmp_eq. destruct (cmp a b); intuition congruence.
Qed.

Lemma same_refl (a : K) : same cmp a a = true.
Proof. now apply same_true. Qed.

Lemma keys_bump (k y : K) (groups : list (K * Z)) :
  In y (map fst (bump cmp k groups)) <-> y = k \/ In y (map fst groups).
Proof.
  induction groups as [|[k' n] rest IH]; simpl.
  - intuition.
  - destruct (cmp k k') eqn:E; simpl.
    + apply cmp_eq in E. subst k'. intuition.
    + intuition.
    + rewrite IH. intuition.
Qed.

Lemma bump_sorted (k : K) (groups : list (K * Z)) :
  StronglySorted ltK (map fst groups) ->
  StronglySorted ltK (map fst (bump cmp k groups)).
Proof.
  induction groups as [|[k' n] rest IH]; simpl; intros Hs.
  - repeat constructor.
  - apply StronglySorted_inv in Hs. destruct Hs as [Hrest Hall].
    destruct (cmp k k') eqn:E; simpl.
    + now constructor.
    + constructor; [now constructor|].
      constructor; [exact E|].
      eapply Forall_impl; [|exact Hall].
      intros z Hz. eapply cmp_trans; eauto.
    + constructor; [now apply IH|].
      apply Forall_forall. intros y Hy.
      apply keys_bump in Hy. destruct Hy as [->|Hy].
      * unfold ltK. rewrite cmp_antisym, E. reflexivity.
      * rewrite Forall_forall in Hall. now apply Hall.
Qed.

Lemma group_count_sorted (keys : list K) :
  StronglySorted ltK (map fst (group_count cmp keys)).
Proof.
  induction keys as [|k keys IH]; simpl; [constructor|].
  now apply bump_sorted.
Qed.

Lemma sorted_keys_nodup (ks : list K) : StronglySorted ltK ks -> NoDup ks.
Proof.
  induction 1 as [|k ks Hs IH Hall]; constructor; [|exact IH].
  intros Hin. rewrite Forall_forall in Hall. specialize (Hall _ Hin).
  unfold ltK in Hall.
  assert (cmp k k = Eq) by now apply cmp_eq. congruence.
Qed.

Lemma group_count_nodup (keys : list K) :
  NoDup (map fst (group_count cmp keys)).
Proof. apply sorted_keys_nodup, group_count_sorted. Qed.

Lemma keys_group_count (y : K) (keys : list K) :
  In y (map fst (group_count cmp keys)) <-> In y keys.
Proof.
  induction keys as [|k keys IH]; simpl; [tauto|].
  rewrite keys_bump, IH. intuition.
Qed.

Lemma weight_bump (k x : K) (groups : list (K * Z)) :
  weight cmp k (bump cmp x groups)
  = weight cmp k groups + (if same cmp k x then 1 else 0).
Proof.
  induction groups as [|[k' n] rest IH]; cbn [weight bump].
  - destruct (same cmp k x); lia.
  - destruct (cmp x k') eqn:E; cbn [weight].
    + apply cmp_eq in E. subst k'. destruct (same cmp k x); lia.
    + destruct (same cmp k x), (same cmp k k'); lia.
    + rewrite IH. destruct (same cmp k x), (same cmp k k'); lia.
Qed.

Lemma weight_group_count (k : K) (keys : list K) :
  weight cmp k (group_count cmp keys) = tally cmp k keys.
Proof.
  unfold tally. induction keys as [|x keys IH]; simpl; [reflexivity|].
  rewrite weight_bump, IH.
  destruct (same cmp k x); simpl; lia.
Qed.

Lemma weight_absent (k : K) (groups : list (K * Z)) :
  ~ In k (map fst groups) -> weight cmp k groups = 0.
Proof.
  induction groups as [|[k' n] rest IH]; simpl; intros Hn; [reflexivity|].
  destruct (same cmp k k') eqn:E.
  - apply same_true in E. subst. tauto.
  - apply IH. tauto.
Qed.

Lemma weight_member (k : K) (n : Z) (groups : list (K * Z)) :
  NoDup (map fst groups) -> In (k, n) groups -> weight cmp k groups = n.
Proof.
  induction groups as [|[k' m] rest IH]; simpl; intros Hnd Hin; [tauto|].
  inversion Hnd as [|? ? Hfresh Hnd']; subst.
  destruct Hin as [Heq|Hin].
  - inversion Heq; subst. rewrite same_refl, weight_absent; [lia|exact Hfresh].
  - destruct (same cmp k k') eqn:E.
    + apply same_true in E. subst k'. exfalso. apply Hfresh.
      change k with (fst (k, n)). now apply in_map.
    + now apply IH.
Qed.

(** A group of GROUP BY carries the number of rows that have its key. *)
Lemma group_count_exact (k : K) (n : Z) (keys : list K) :
  In (k, n) (group_count cmp keys) -> n = tally cmp k keys.
Proof.
  intros Hin. rewrite <- weight_group_count. symmetry.
  apply weight_member; [apply group_count_nodup|exact Hin].
Qed.

Lemma tally_pos (k : K) (keys : list K) : In k keys -> 0 < tally cmp k keys.
Proof.
  unfold tally. induction keys as [|x keys IH]; simpl; [tauto|].
  intros [->|Hin].
  - rewrite same_refl. simpl. lia.
  - destruct (same cmp k x); simpl; [lia|auto].
Qed.

(** Every key that occurs has its group. *)
Lemma group_count_complete (k : K) (keys : list K) :
  In k keys -> In (k, tally cmp k keys) (group_count cmp keys).
Proof.
  intros Hin. apply keys_group_count in Hin.
  apply in_map_iff in Hin. destruct Hin as [[k' n] [Hk Hin]].
  simpl in Hk. subst k'.
  now rewrite <- (group_count_exact _ _ _ Hin).
Qed.
End GroupingFacts.

(** ** Order on text (BINARY collation) and on integers *)

Lemma ascii_compare_cases (a b : ascii) :
  match Ascii.compare a b with
  | Eq => a = b
  | Lt => (Text.code a < Text.code b)%N
  | Gt => (Text.code b < Text.code a)%N
  end.
Proof.
  unfold Ascii.compare, Text.code.
  destruct (N.compare_spec (N_of_ascii a) (N_of_ascii b)) as [H|H|H]; auto.
  rewrite <- (ascii_N_embedding a), <- (ascii_N_embedding b). now f_equal.
Qed.

Lemma ascii_compare_refl (a : ascii) : Ascii.compare a a = Eq.
Proof. unfold Ascii.compare. apply N.compare_refl. Qed.

Lemma string_compare_refl (s : string) : String.compare s s = Eq.
Proof.
  induction s as [|c s IH]; simpl; [reflexivity|].
  now rewrite ascii_compare_refl.
Qed.

Lemma string_compare_eq (a b : string) : String.compare a b = Eq <-> a = b.
Proof.
  split; [apply String.compare_eq_iff|intros ->; apply string_compare_refl].
Qed.

Lemma string_compare_trans (a b c : string) :
  String.compare a b = Lt -> String.compare b c = Lt ->
  String.compare a c = Lt.
Proof.
  revert b c. induction a as [|x a IH]; intros [|y b] [|z c]; simpl;
    try congruence.
  pose proof (ascii_compare_cases x y) as Hxy.
  pose proof (ascii_compare_cases y z) as Hyz.
  pose proof (ascii_compare_cases x z) as Hxz.
  destruct (Ascii.compare x y), (Ascii.compare y z), (Ascii.compare x z);
    subst; try congruence; try lia; intros; eauto.
Qed.

Lemma string_leb_trans (a b c : string) :
  String.leb a b = true -> String.leb b c = true -> String.leb a c = true.
Proof.
  unfold String.leb. intros Hab Hbc.
  destruct (String.compare a b) eqn:Eab; try discriminate.
  - apply string_compare_eq in Eab. now subst.
  - destruct (String.compare b c) eqn:Ebc; try discriminate.
    + apply string_compare_eq in Ebc. subst. now rewrite Eab.
    + now rewrite (string_compare_trans _ _ _ Eab Ebc).
Qed.

Lemma same_string (a b : string) : same String.compare a b = String.eqb a b.
Proof.
  unfold same. destruct (String.eqb_spec a b) as [->|Hne].
  - now rewrite string_compare_refl.
  - destruct (String.compare a b) eqn:E; try reflexivity.
    now apply string_compare_eq in E.
Qed.

Lemma same_Z (a b : Z) : same Z.compare a b = (a =? b).
Proof.
  unfold same. destruct (Z.eqb_spec a b) as [->|Hne].
  - now rewrite Z.compare_refl.
  - destruct (a ?= b) eqn:E; try reflexivity.
    now apply Z.compare_eq in E.
Qed.

Lemma Z_compare_antisym (a b : Z) : (a ?= b) = CompOpp (b ?= a).
Proof. apply Z.compare_antisym. Qed.

Lemma Z_compare_trans (a b c : Z) :
  (a ?= b) = Lt -> (b ?= c) = Lt -> (a ?= c) = Lt.
Proof. rewrite !Z.compare_lt_iff. lia. Qed.

Lemma tally_map {K : Type} (cmp : K -> K -> comparison) (key : row -> K)
  (k : K) (rs : list row) :
  tally cmp k (map key rs) = count_where (fun r => same cmp k (key r)) rs.
Proof.
  unfold tally, count_where. f_equal.
  induction rs as [|r rs IH]; simpl; [reflexivity|].
  destruct (same cmp k (key r)); simpl; congruence.
Qed.


(* ================================================================== *)
(** * [execute_query] and the five store functions, call by call *)
(* ================================================================== *)

Lemma skip_file (n : nat) (w : world) : file (skip n w) = file w.
Proof. reflexivity. Qed.

Lemma skip_skip (a b : nat) (w : world) :
  skip a (skip b w) = skip (b + a) w.
Proof.
  unfold skip; simpl. f_equal. rewrite skipn_skipn. f_equal. lia.
Qed.

Lemma fault_at_skip (a b : nat) (w : world) :
  fault_at a (skip b w) = fault_at (b + a) w.
Proof. unfold fault_at, skip; simpl. apply nth_skipn. Qed.

Lemma next_fault_eq (w : world) :
  next_fault w = (Returned (fault_at 0 w), skip 1 w).
Proof.
  unfold next_fault, fault_at, skip.
  destruct w as [d [|f fs]]; reflexivity.
Qed.

Lemma try_query_fault (q : statement) (fetchall : bool) (w : world) :
  fault_at 0 w = true ->
  try_query q fetchall w = (Raised SqliteError, skip 1 w).
Proof.
  intros Hf. unfold try_query, bind. rewrite next_fault_eq, Hf. reflexivity.
Qed.

Lemma try_query_run (q : statement) (fetchall : bool) (w : world) :
  fault_at 0 w = false ->
  try_query q fetchall w
  = match cursor_execute q (connect (file w)) with
    | Raised e => (Raised e, skip 1 w)
    | Returned (rows, conn') =>
        if fetchall then (Returned (PyList rows), skip 1 w)
        else (Returned (PyInt (last_insert_rowid conn')),
              {| file := commit conn'; faults := skipn 1 (faults w) |})
    end.
Proof.
  intros Hf. unfold try_query, bind. rewrite next_fault_eq, Hf. reflexivity.
Qed.

Lemma execute_query_fault (q : statement) (fetchall : bool) (w : world) :
  fault_at 0 w = true ->
  execute_query q fetchall w = (Returned PyNone, skip 1 w).
Proof.
  intros Hf. unfold execute_query, except_sqlite_error.
  now rewrite try_query_fault.
Qed.

(** A SELECT that is fetched: the rows, or [None] on a fault. *)
Lemma execute_query_fetch (q : statement) (w : world) :
  reads q = true ->
  execute_query q true w = (Returned (fetched q 0 w), skip 1 w).
Proof.
  intros Hr. unfold execute_query, except_sqlite_error, fetched.
  destruct (fault_at 0 w) eqn:Hf.
  - now rewrite try_query_fault.
  - rewrite try_query_run by exact Hf.
    destruct q; try discriminate; reflexivity.
Qed.

(** A fetching call never touches the file, whatever the statement and
    whatever comes of it. *)
Lemma execute_query_fetch_world (q : statement) (w : world) :
  snd (execute_query q true w) = skip 1 w.
Proof.
  unfold execute_query, except_sqlite_error.
  destruct (fault_at 0 w) eqn:Hf.
  - now rewrite try_query_fault.
  - rewrite try_query_run by exact Hf. unfold cursor_execute.
    destruct (bindable q); [|reflexivity].
    destruct (execute q (connect (file w))) as [[rows conn']|]; reflexivity.
Qed.

Lemma execute_query_overflow (q : statement) (fetchall : bool) (w : world) :
  fault_at 0 w = false -> bindable q = false ->
  execute_query q fetchall w = (Raised OverflowError, skip 1 w).
Proof.
  intros Hf Hb. unfold execute_query, except_sqlite_error.
  rewrite try_query_run by exact Hf. unfold cursor_execute.
  now rewrite Hb.
Qed.

Lemma execute_query_insert
  (t a : string) (y : Z) (g : string) (r : bool) (w : world) :
  fault_at 0 w = false -> fits_integer y = true ->
  execute_query (InsertBook t a y g r) false w
  = if next_rowid (file w) <=? max_rowid
    then (Returned (PyInt (next_rowid (file w))),
          {| file := inserted (file w) t a y g r;
             faults := skipn 1 (faults w) |})
    else (Returned PyNone, skip 1 w).
Proof.
  intros Hf Hy. unfold execute_query, except_sqlite_error.
  rewrite try_query_run by exact Hf. unfold cursor_execute.
  cbn [bindable execute connect live]. rewrite Hy.
  destruct (next_rowid (file w) <=? max_rowid); reflexivity.
Qed.

Lemma execute_query_delete (i : Z) (w : world) :
  fault_at 0 w = false -> fits_integer i = true ->
  execute_query (DeleteBook i) false w
  = (Returned (PyInt 0),
     {| file := deleted (file w) i; faults := skipn 1 (faults w) |}).
Proof.
  intros Hf Hi. unfold execute_query, except_sqlite_error.
  rewrite try_query_run by exact Hf. unfold cursor_execute.
  cbn [bindable execute connect live]. rewrite Hi. reflexivity.
Qed.

Lemma quiet_fault_at (n k : nat) (w : world) :
  quiet n w -> (k < n)%nat -> fault_at k w = false.
Proof.
  unfold quiet, fault_at. generalize (faults w) as l.
  revert k. induction n as [|n IH]; intros k l Hq Hk; [lia|].
  destruct l as [|f l]; [now destruct k|].
  simpl in Hq. inversion Hq; subst.
  destruct k as [|k]; simpl; [reflexivity|].
  apply IH; [assumption|lia].
Qed.

Lemma get_all_books_eq (w : world) :
  get_all_books w
  = (Returned (if fault_at 0 w then []
               else map to_book (listed (file w))),
     skip 1 w).
Proof.
  unfold get_all_books, bind. rewrite execute_query_fetch by reflexivity.
  unfold fetched, listed. destruct (fault_at 0 w); [reflexivity|].
  cbn [select]. destruct (order_by by_title (books (file w))); reflexivity.
Qed.

Lemma search_books_eq (search_type search_query : string) (w : world) :
  search_books search_type search_query w
  = (Returned (if fault_at 0 w then []
               else map to_book (selected search_type search_query (file w))),
     skip 1 w).
Proof.
  unfold search_books, bind, selected, by_column, search_column.
  destruct (String.eqb search_type "Title");
    rewrite execute_query_fetch by reflexivity;
    unfold fetched; (destruct (fault_at 0 w); [reflexivity|]);
    cbn [select]; unfold by_title, by_author;
    match goal with
    | |- context [order_by ?f ?l] => destruct (order_by f l)
    end; reflexivity.
Qed.

Lemma bind_returned {A B : Type} (m : M A) (k : A -> M B) (w w' : world)
  (a : A) :
  m w = (Returned a, w') -> bind m k w = k a w'.
Proof. intros H. unfold bind. now rewrite H. Qed.

Lemma bind_raised {A B : Type} (m : M A) (k : A -> M B) (w w' : world)
  (e : exn) :
  m w = (Raised e, w') -> bind m k w = (Raised e, w').
Proof. intros H. unfold bind. now rewrite H. Qed.

Lemma fetched_skip (q : statement) (a b : nat) (w : world) :
  fetched q a (skip b w) = fetched q (b + a) w.
Proof. unfold fetched. now rewrite fault_at_skip, skip_file. Qed.

Lemma guarded_total (n : nat) (w w' : world) :
  (if truthy (fetched CountBooks n w) then first_cell (fetched CountBooks n w)
   else ret 0) w'
  = (Returned (if fault_at n w then 0
               else Z.of_nat (List.length (books (file w)))), w').
Proof. unfold fetched. destruct (fault_at n w); reflexivity. Qed.

Lemma guarded_read (n : nat) (w w' : world) :
  (if truthy (fetched CountRead n w) then first_cell (fetched CountRead n w)
   else ret 0) w'
  = (Returned (if fault_at n w then 0
               else count_where (fun r => read r =? 1) (books (file w))), w').
Proof. unfold fetched. destruct (fault_at n w); reflexivity. Qed.

Lemma guarded_percentage (reads total : Z) (w' : world) :
  (if total >? 0 then
     ratio <- true_divide reads total ;;
     ret (FloatNumber (PrimFloat.mul ratio (float_of_int 100)))
   else ret (IntNumber 0)) w'
  = (Returned (if total >? 0 then FloatNumber (percentage reads total)
               else IntNumber 0), w').
Proof.
  destruct (total >? 0) eqn:E; [|reflexivity].
  unfold bind, true_divide.
  assert (H : (total =? 0) = false) by (apply Z.eqb_neq; lia).
  rewrite H. reflexivity.
Qed.

Lemma guarded_genres (n : nat) (w w' : world) :
  (if truthy (fetched TopGenres n w) then
     data <- text_counts (fetched TopGenres n w) ;;
     ret (comprehension (fun g => g) data)
   else ret []) w'
  = (Returned (if fault_at n w then []
               else comprehension (fun g => g)
                      (top_counts genre (books (file w)))), w').
Proof.
  unfold fetched. destruct (fault_at n w); [reflexivity|].
  cbn [select]. fold (top_counts genre (books (file w))).
  destruct (top_counts genre (books (file w))); reflexivity.
Qed.

Lemma guarded_authors (n : nat) (w w' : world) :
  (if truthy (fetched TopAuthors n w) then
     data <- text_counts (fetched TopAuthors n w) ;;
     ret (comprehension (fun a => a) data)
   else ret []) w'
  = (Returned (if fault_at n w then []
               else comprehension (fun a => a)
                      (top_counts author (books (file w)))), w').
Proof.
  unfold fetched. destruct (fault_at n w); [reflexivity|].
  cbn [select]. fold (top_counts author (books (file w))).
  destruct (top_counts author (books (file w))); reflexivity.
Qed.

Lemma guarded_decades (n : nat) (w w' : world) :
  (if truthy (fetched Decades n w) then
     data <- int_counts (fetched Decades n w) ;;
     ret (comprehension decade_label data)
   else ret []) w'
  = (Returned (if fault_at n w then []
               else comprehension decade_label
                      (decade_counts (books (file w)))), w').
Proof.
  unfold fetched. destruct (fault_at n w); [reflexivity|].
  cbn [select]. fold (decade_counts (books (file w))).
  destruct (decade_counts (books (file w))); reflexivity.
Qed.

(** [get_statistics] always returns, and what it returns is [report]. *)
Lemma get_statistics_eq (w : world) :
  get_statistics w = (Returned (report w), skip 5 w).
Proof.
  unfold get_statistics.
  erewrite bind_returned by (now apply execute_query_fetch).
  erewrite bind_returned by apply guarded_total.
  erewrite bind_returned by (now apply execute_query_fetch).
  rewrite fetched_skip. simpl Nat.add.
  erewrite bind_returned by apply guarded_read.
  erewrite bind_returned by apply guarded_percentage.
  erewrite bind_returned by (now apply execute_query_fetch).
  rewrite skip_skip, fetched_skip. simpl Nat.add.
  erewrite bind_returned by apply guarded_genres.
  erewrite bind_returned by (now apply execute_query_fetch).
  rewrite skip_skip, fetched_skip. simpl Nat.add.
  erewrite bind_returned by apply guarded_authors.
  erewrite bind_returned by (now apply execute_query_fetch).
  rewrite skip_skip, fetched_skip. simpl Nat.add.
  erewrite bind_returned by apply guarded_decades.
  rewrite skip_skip. reflexivity.
Qed.

(* ================================================================== *)
(** * Reads, faults, delete and add *)
(* ================================================================== *)

(** C10. List, Search and Statistics never modify the stored table: after
    any of them the backing file is the one found before the call, whether
    its queries succeed or meet a storage fault.  The reason is the fetch
    path of [execute_query]: it never commits, so even a statement that
    writes would leave the file as it was, whatever comes of the call. *)
Theorem reads_leave_table_unchanged
  (w : world) (search_type search_query : string) :
  file (snd (get_all_books w)) = file w
  /\ file (snd (search_books search_type search_query w)) = file w
  /\ file (snd (get_statistics w)) = file w
  /\ (forall q : statement, file (snd (execute_query q true w)) = file w).
Proof.
  rewrite get_all_books_eq, search_books_eq, get_statistics_eq.
  repeat split. intros q. now rewrite execute_query_fetch_world.
Qed.

Lemma database_eta (d : database) :
  {| books := books d; sequence := sequence d |} = d.
Proof. now destruct d. Qed.

Lemma filter_all {A : Type} (p : A -> bool) (l : list A) :
  (forall x, In x l -> p x = true) -> filter p l = l.
Proof.
  induction l as [|x l IH]; simpl; intros H; [reflexivity|].
  rewrite (H x) by now left. f_equal. apply IH. intros y Hy. apply H. now right.
Qed.

Lemma add_book_to_db_eq
  (t a : string) (y : Z) (g : string) (r : bool) (w : world) :
  fault_at 0 w = false -> fits_integer y = true -> room (file w) ->
  add_book_to_db t a y g r w
  = (Returned true,
     {| file :=
          {| books :=
               (books (file w)
                ++ [{| id := next_rowid (file w); title := t; author := a;
                       year := y; genre := g; read := Z.b2z r |}])%list;
             sequence := next_rowid (file w) |};
        faults := skipn 1 (faults w) |}).
Proof.
  intros Hf Hy Hroom. unfold add_book_to_db, bind.
  rewrite execute_query_insert by assumption.
  apply Z.leb_le in Hroom. rewrite Hroom. reflexivity.
Qed.

Lemma add_book_to_db_full
  (t a : string) (y : Z) (g : string) (r : bool) (w : world) :
  fault_at 0 w = false -> fits_integer y = true -> ~ room (file w) ->
  add_book_to_db t a y g r w = (Returned false, skip 1 w).
Proof.
  intros Hf Hy Hroom. unfold add_book_to_db, bind.
  rewrite execute_query_insert by assumption.
  unfold room in Hroom. apply Z.leb_nle in Hroom. rewrite Hroom. reflexivity.
Qed.

Lemma add_book_to_db_fault
  (t a : string) (y : Z) (g : string) (r : bool) (w : world) :
  fault_at 0 w = true ->
  add_book_to_db t a y g r w = (Returned false, skip 1 w).
Proof.
  intros Hf. unfold add_book_to_db.
  erewrite bind_returned by (now apply execute_query_fault). reflexivity.
Qed.

Lemma add_book_to_db_overflow
  (t a : string) (y : Z) (g : string) (r : bool) (w : world) :
  fault_at 0 w = false -> fits_integer y = false ->
  add_book_to_db t a y g r w = (Raised OverflowError, skip 1 w).
Proof.
  intros Hf Hy. unfold add_book_to_db.
  erewrite bind_raised; [reflexivity|].
  now apply execute_query_overflow.
Qed.

Lemma delete_book_eq (i : Z) (w : world) :
  fault_at 0 w = false -> fits_integer i = true ->
  delete_book i w
  = (Returned true,
     {| file :=
          {| books := filter (fun r => negb (id r =? i)) (books (file w));
             sequence := sequence (file w) |};
        faults := skipn 1 (faults w) |}).
Proof.
  intros Hf Hi. unfold delete_book.
  erewrite bind_returned by (now apply execute_query_delete). reflexivity.
Qed.

Lemma delete_book_fault (i : Z) (w : world) :
  fault_at 0 w = true -> delete_book i w = (Returned false, skip 1 w).
Proof.
  intros Hf. unfold delete_book.
  erewrite bind_returned by (now apply execute_query_fault). reflexivity.
Qed.

Lemma delete_book_overflow (i : Z) (w : world) :
  fault_at 0 w = false -> fits_integer i = false ->
  delete_book i w = (Raised OverflowError, skip 1 w).
Proof.
  intros Hf Hi. unfold delete_book.
  erewrite bind_raised; [reflexivity|].
  now apply execute_query_overflow.
Qed.

(** C2, as the code has it.  When no storage fault occurs, [delete_book]
    reports success for every id that fits a signed 64-bit integer: the
    rows carrying that id are removed, and for an id that no row carries
    nothing is removed and the answer is still success. *)
Theorem delete_reports_success (book_id : Z) (w : world) :
  sql_integer book_id ->
  quiet 1 w ->
  delete_book book_id w
  = (Returned true,
     {| file :=
          {| books :=
               filter (fun r => negb (id r =? book_id)) (books (file w));
             sequence := sequence (file w) |};
        faults := skipn 1 (faults w) |})
  /\ (~ In book_id (map id (books (file w))) ->
      delete_book book_id w = (Returned true, skip 1 w)).
Proof.
  intros Hi Hq.
  assert (Hf : fault_at 0 w = false) by (eapply quiet_fault_at; eauto).
  split; [now apply delete_book_eq|].
  intros Hnot. rewrite delete_book_eq by assumption.
  rewrite filter_all.
  - now rewrite database_eta.
  - intros r Hr. apply negb_true_iff, Z.eqb_neq. intros Heq.
    apply Hnot. rewrite <- Heq. now apply in_map.
Qed.

Lemma delete_reports_success_witness :
  delete_book 7 {| file := Sqlite.empty; faults := [] |}
  = (Returned true, skip 1 {| file := Sqlite.empty; faults := [] |}).
Proof.
  apply (delete_reports_success 7 {| file := Sqlite.empty; faults := [] |}).
  - reflexivity.
  - constructor.
  - simpl. tauto.
Defined.

(** C2, as the specification has it, fails: an id beyond the signed 64-bit
    range is not bound by the driver.  Without any storage fault
    [delete_book] then raises [OverflowError], which the [except] clause
    of [execute_query] does not catch, instead of reporting success; no
    row carries such an id. *)
Lemma delete_of_unbindable_id_raises :
  let w := {| file := sample_library; faults := [] |} in
  quiet 1 w
  /\ ~ In (2 ^ 63) (map id (books (file w)))
  /\ delete_book (2 ^ 63) w = (Raised OverflowError, w)
  /\ delete_book (- 2 ^ 63 - 1) w = (Raised OverflowError, w)
  /\ delete_book (2 ^ 63 - 1) w = (Returned true, w).
Proof.
  cbv zeta. split; [constructor|]. split.
  - vm_compute. intuition discriminate.
  - repeat split; reflexivity.
Qed.

(** C3, as the code has it.  For a year that fits a signed 64-bit integer,
    when no storage fault occurs and the rowids are not used up,
    [add_book_to_db] appends the row under the next rowid and returns the
    flag [True]; the new id is what [execute_query] hands to it, and it
    goes no further. *)
Theorem add_returns_success_flag
  (t a : string) (y : Z) (g : string) (r : bool) (w : world) :
  sql_integer y ->
  quiet 1 w ->
  room (file w) ->
  add_book_to_db t a y g r w
  = (Returned true,
     {| file :=
          {| books :=
               (books (file w)
                ++ [{| id := next_rowid (file w); title := t; author := a;
                       year := y; genre := g; read := Z.b2z r |}])%list;
             sequence := next_rowid (file w) |};
        faults := skipn 1 (faults w) |})
  /\ fst (execute_query (InsertBook t a y g r) false w)
     = Returned (PyInt (next_rowid (file w))).
Proof.
  intros Hy Hq Hroom.
  assert (Hf : fault_at 0 w = false) by (eapply quiet_fault_at; eauto).
  split; [now apply add_book_to_db_eq|].
  rewrite execute_query_insert by assumption.
  apply Z.leb_le in Hroom. now rewrite Hroom.
Qed.

Lemma add_returns_success_flag_witness :
  fst (add_book_to_db "Emma" "Jane Austen" 2003 "Novel" true
         {| file := Sqlite.empty; faults := [] |}) = Returned true.
Proof.
  pose proof (add_returns_success_flag "Emma" "Jane Austen" 2003 "Novel" true
                {| file := Sqlite.empty; faults := [] |}) as H.
  destruct H as [H _].
  - reflexivity.
  - constructor.
  - unfold room. vm_compute. discriminate.
  - rewrite H. reflexivity.
Defined.

(** C3, as the specification has it, fails twice over.  The second book of
    a library gets id 2, and the caller of [add_book_to_db] is handed
    [True], which is not 2 even when read as the integer 1.  And a year
    beyond the signed 64-bit range, an integer all the same, is not bound
    by the driver: without any storage fault the call raises
    [OverflowError] and returns nothing. *)
Lemma add_does_not_return_id :
  let w := {| file :=
                {| books := [{| id := 1; title := "Emma";
                                author := "Jane Austen"; year := 2003;
                                genre := "Novel"; read := 1 |}];
                   sequence := 1 |};
              faults := [] |} in
  let result := add_book_to_db "Persuasion" "Jane Austen" 2004 "Novel" false w
  in
  (exists flag : bool,
     fst result = Returned flag /\ flag = true /\ Z.b2z flag <> 2)
  /\ map id (books (file (snd result))) = [1; 2]
  /\ fst (execute_query
            (InsertBook "Persuasion" "Jane Austen" 2004 "Novel" false)
            false w) = Returned (PyInt 2)
  /\ add_book_to_db "Persuasion" "Jane Austen" (2 ^ 63) "Novel" false w
     = (Raised OverflowError, w).
Proof.
  cbv zeta. split; [|repeat split].
  exists true. repeat split. vm_compute. discriminate.
Qed.

(** C8. A storage fault is caught where the query runs and never reaches
    the caller: the [try] block raises [sqlite3.Error] when the fault
    occurs, and [execute_query] turns that into [None].  The store
    functions then return their defaults with the file untouched: [False]
    from add and delete, the empty list from list and search, and from
    statistics, which returns a report under every schedule of faults,
    zero or the empty dictionary for each of its five queries that failed.
    The engine's own error of used-up rowids is contained the same way. *)
Theorem storage_fault_is_contained (w : world) :
  (faulted 0 w ->
   (forall q fetchall,
      try_query q fetchall w = (Raised SqliteError, skip 1 w)
      /\ execute_query q fetchall w = (Returned PyNone, skip 1 w))
   /\ (forall t a y g r,
         add_book_to_db t a y g r w = (Returned false, skip 1 w))
   /\ get_all_books w = (Returned [], skip 1 w)
   /\ (forall ty q, search_books ty q w = (Returned [], skip 1 w))
   /\ (forall i, delete_book i w = (Returned false, skip 1 w)))
  /\ (exists s, get_statistics w = (Returned s, skip 5 w)
      /\ (faulted 0 w ->
          total_books s = 0 /\ read_percentage s = IntNumber 0)
      /\ (faulted 1 w -> read_books s = 0)
      /\ (faulted 2 w -> genres s = [])
      /\ (faulted 3 w -> authors s = [])
      /\ (faulted 4 w -> decades s = [])
      /\ ((forall n, (n < 5)%nat -> faulted n w) -> s = zero_statistics))
  /\ (forall t a y g r,
        sql_integer y -> ~ room (file w) ->
        try_query (InsertBook t a y g r) false w
        = (Raised SqliteError, skip 1 w)
        /\ add_book_to_db t a y g r w = (Returned false, skip 1 w)).
Proof.
  unfold faulted. fold (fault_at 0 w) (fault_at 1 w) (fault_at 2 w)
    (fault_at 3 w) (fault_at 4 w).
  split; [intros H; split; [|split; [|split; [|split]]]|split].
  - intros q fetchall. split.
    + now apply try_query_fault.
    + now apply execute_query_fault.
  - intros t a y g r. now apply add_book_to_db_fault.
  - rewrite get_all_books_eq. now rewrite H.
  - intros ty q. rewrite search_books_eq. now rewrite H.
  - intros i. now apply delete_book_fault.
  - exists (report w). split; [apply get_statistics_eq|].
    unfold report. cbn [total_books read_books read_percentage genres
                        authors decades].
    split; [|split; [|split; [|split; [|split]]]].
    + intros H. rewrite H. split; reflexivity.
    + intros H. now rewrite H.
    + intros H. now rewrite H.
    + intros H. now rewrite H.
    + intros H. now rewrite H.
    + intros H. unfold fault_at.
      rewrite (H 0%nat), (H 1%nat), (H 2%nat), (H 3%nat), (H 4%nat) by lia.
      reflexivity.
  - intros t a y g r Hy Hroom.
    destruct (fault_at 0 w) eqn:Hf.
    + split; [now apply try_query_fault|now apply add_book_to_db_fault].
    + split; [|now apply add_book_to_db_full].
      rewrite try_query_run by exact Hf. unfold cursor_execute.
      cbn [bindable execute connect live]. rewrite Hy.
      unfold room in Hroom. apply Z.leb_nle in Hroom. now rewrite Hroom.
Qed.

Lemma storage_fault_is_contained_witness :
  get_all_books {| file := sample_library; faults := [true] |}
  = (Returned [], {| file := sample_library; faults := [] |})
  /\ (exists s,
        get_statistics
          {| file := sample_library;
             faults := [true; true; true; true; true; false] |}
        = (Returned s, {| file := sample_library; faults := [false] |})
        /\ s = zero_statistics)
  /\ add_book_to_db "Emma" "Jane Austen" 2003 "Novel" true
       {| file := full_library; faults := [] |}
     = (Returned false, {| file := full_library; faults := [] |}).
Proof.
  split; [|split].
  - destruct (storage_fault_is_contained
                {| file := sample_library; faults := [true] |})
      as [H _].
    destruct H as [_ [_ [H _]]]; [reflexivity|exact H].
  - destruct (storage_fault_is_contained
                {| file := sample_library;
                   faults := [true; true; true; true; true; false] |})
      as [_ [[s [Hs [_ [_ [_ [_ [_ H]]]]]]] _]].
    exists s. split; [exact Hs|].
    apply H. intros n Hn.
    destruct n as [|[|[|[|[|n]]]]]; try reflexivity. lia.
  - destruct (storage_fault_is_contained
                {| file := full_library; faults := [] |})
      as [_ [_ H]].
    destruct (H "Emma" "Jane Austen" 2003 "Novel" true) as [_ H'].
    + reflexivity.
    + unfold room. vm_compute. intros Hle. now apply Hle.
    + exact H'.
Defined.

(* ================================================================== *)
(** * Statistics: totals and percentage *)
(* ================================================================== *)

(** C5, as the code has it.  [get_statistics] returns a report under every
    schedule of faults and on every table: the division is guarded and
    nothing is raised.  On an empty table the report has total 0, read 0
    and the integer 0 as percentage.  Whenever the total it reports is
    positive (and below 2^53, so that the counts convert exactly), the
    percentage is the floating-point number [(read / total) * 100], each of
    the two operations rounded; otherwise it is the integer 0.  Without
    faults the two counts are the number of rows and the number of rows
    whose [read] column is 1. *)
Theorem statistics_percentage (w : world) :
  exists s : statistics,
    get_statistics w = (Returned s, skip 5 w)
    /\ (books (file w) = [] ->
        total_books s = 0 /\ read_books s = 0
        /\ read_percentage s = IntNumber 0)
    /\ (0 < total_books s < 2 ^ 53 ->
        read_percentage s
        = FloatNumber
            (PrimFloat.mul
               (PrimFloat.div (float_of_int (read_books s))
                              (float_of_int (total_books s)))
               (float_of_int 100)))
    /\ (total_books s <= 0 -> read_percentage s = IntNumber 0)
    /\ (quiet 2 w ->
        total_books s = Z.of_nat (List.length (books (file w)))
        /\ read_books s
           = count_where (fun r => read r =? 1) (books (file w))).
Proof.
  exists (report w). split; [apply get_statistics_eq|].
  unfold report. cbn [total_books read_books read_percentage].
  split; [|split; [|split]].
  - intros Hempty. rewrite Hempty. simpl.
    destruct (fault_at 0 w), (fault_at 1 w); auto.
  - set (total := if fault_at 0 w then 0 else _).
    intros [Hpos _]. destruct (total >? 0) eqn:E; [reflexivity|lia].
  - set (total := if fault_at 0 w then 0 else _).
    intros Hle. destruct (total >? 0) eqn:E; [lia|reflexivity].
  - intros Hq.
    rewrite (quiet_fault_at 2 0 w Hq), (quiet_fault_at 2 1 w Hq) by lia.
    split; reflexivity.
Qed.

Lemma statistics_percentage_witness :
  exists s : statistics,
    fst (get_statistics {| file := sample_library; faults := [] |})
    = Returned s
    /\ total_books s = 3
    /\ read_books s = 1
    /\ read_percentage s = FloatNumber (percentage 1 3).
Proof.
  destruct (statistics_percentage
              {| file := sample_library; faults := [] |})
    as [s [Hs [_ [Hp [_ Hc]]]]].
  exists s.
  destruct Hc as [Ht Hr]; [constructor|].
  assert (Ht' : total_books s = 3) by (rewrite Ht; reflexivity).
  assert (Hr' : read_books s = 1) by (rewrite Hr; reflexivity).
  split; [now rewrite Hs|]. split; [exact Ht'|]. split; [exact Hr'|].
  rewrite Hp by (rewrite Ht'; split; reflexivity).
  rewrite Ht', Hr'. reflexivity.
Defined.

(** C5, as the specification has it, fails in its general part.  With one
    book read out of three, [get_statistics] returns
    33.33333333333333 (the float [(1 / 3) * 100], two roundings), whereas
    [100 * 1 / 3] is 33.333333333333336 when computed on floats in that
    order, and as a number it is one that three times the returned value
    does not reach. *)
Lemma percentage_is_not_100_times_ratio :
  let w := {| file := sample_library; faults := [] |} in
  exists s : statistics,
    get_statistics w = (Returned s, skip 5 w)
    /\ total_books s = 3
    /\ read_books s = 1
    /\ read_percentage s = FloatNumber 0x1.0aaaaaaaaaaaap+5%float
    /\ PrimFloat.div (PrimFloat.mul (float_of_int 100) (float_of_int 1))
                     (float_of_int 3)
       = 0x1.0aaaaaaaaaaabp+5%float
    /\ PrimFloat.eqb 0x1.0aaaaaaaaaaaap+5 0x1.0aaaaaaaaaaabp+5 = false
    /\ FloatOps.Prim2SF 0x1.0aaaaaaaaaaaap+5
       = SpecFloat.S754_finite false 4691249611844266 (-47)
    /\ 3 * 4691249611844266 < 100 * 2 ^ 47.
Proof.
  cbv zeta. exists (report {| file := sample_library; faults := [] |}).
  split; [apply get_statistics_eq|].
  repeat split.
Qed.

(* ================================================================== *)
(** * Dictionaries built by comprehension *)
(* ================================================================== *)

Lemma dict_set_fresh (k : string) (v : Z) (d : dict) :
  ~ In k (map fst d) -> dict_set k v d = (d ++ [(k, v)])%list.
Proof.
  induction d as [|[k' v'] d IH]; simpl; intros Hn; [reflexivity|].
  destruct (String.eqb_spec k k') as [->|Hne]; [tauto|].
  f_equal. apply IH. tauto.
Qed.

Lemma comprehension_acc {K : Type} (key : K -> string)
  (data : list (K * Z)) (acc : dict) :
  NoDup (map fst acc ++ map (fun kc => key (fst kc)) data) ->
  fold_left (fun d kc => dict_set (key (fst kc)) (snd kc) d) data acc
  = (acc ++ map (fun kc => (key (fst kc), snd kc)) data)%list.
Proof.
  revert acc. induction data as [|[k n] data IH]; simpl; intros acc Hnd.
  - now rewrite app_nil_r.
  - rewrite dict_set_fresh.
    + rewrite IH.
      * now rewrite <- app_assoc.
      * rewrite map_app, <- app_assoc. exact Hnd.
    + apply NoDup_remove_2 in Hnd. intros Hin. apply Hnd.
      apply in_or_app. now left.
Qed.

(** With pairwise distinct keys a comprehension keeps every pair, in the
    order of the data. *)
Lemma comprehension_distinct {K : Type} (key : K -> string)
  (data : list (K * Z)) :
  NoDup (map (fun kc => key (fst kc)) data) ->
  comprehension key data = map (fun kc => (key (fst kc), snd kc)) data.
Proof.
  intros Hnd. unfold comprehension. now rewrite comprehension_acc.
Qed.

Lemma dict_get_member (k : string) (v : Z) (d : dict) :
  NoDup (map fst d) -> In (k, v) d -> dict_get k d = Some v.
Proof.
  induction d as [|[k' v'] d IH]; simpl; intros Hnd Hin; [tauto|].
  inversion Hnd as [|? ? Hfresh Hnd']; subst.
  destruct Hin as [Heq|Hin].
  - inversion Heq; subst. now rewrite String.eqb_refl.
  - destruct (String.eqb_spec k k') as [->|Hne]; [|now apply IH].
    exfalso. apply Hfresh. change k' with (fst (k', v)). now apply in_map.
Qed.

(** ** Decimal labels *)

Lemma to_int_proper (n : Z) :
  Z.to_int n <> Decimal.Pos Decimal.Nil /\ Z.to_int n <> Decimal.Neg Decimal.Nil.
Proof.
  destruct n as [|p|p]; simpl; split; try discriminate;
    intros [= H]; now apply (DecimalPos.Unsigned.to_uint_nonnil p).
Qed.

Lemma str_of_int_inj (a b : Z) :
  Text.str_of_int a = Text.str_of_int b -> a = b.
Proof.
  unfold Text.str_of_int. intros H.
  apply DecimalZ.to_int_inj.
  destruct (to_int_proper a) as [Ha1 Ha2], (to_int_proper b) as [Hb1 Hb2].
  pose proof (NilZero.isi _ Ha1 Ha2) as Ia.
  pose proof (NilZero.isi _ Hb1 Hb2) as Ib.
  rewrite H in Ia. congruence.
Qed.

Lemma length_append (a b : string) :
  String.length (a ++ b) = (String.length a + String.length b)%nat.
Proof. induction a as [|x a IH]; simpl; congruence. Qed.

Lemma append_inj_l (a b s : string) : (a ++ s = b ++ s)%string -> a = b.
Proof.
  revert b. induction a as [|x a IH]; intros [|y b]; simpl; intros H.
  - reflexivity.
  - exfalso. apply (f_equal String.length) in H.
    simpl in H. rewrite length_append in H. lia.
  - exfalso. apply (f_equal String.length) in H.
    simpl in H. rewrite length_append in H. lia.
  - inversion H. f_equal. now apply IH.
Qed.

Lemma decade_label_inj (a b : Z) : decade_label a = decade_label b -> a = b.
Proof.
  unfold decade_label. intros H.
  now apply str_of_int_inj, (append_inj_l _ _ "s").
Qed.

(* ================================================================== *)
(** * Statistics: top five genres and authors *)
(* ================================================================== *)

Lemma sorted_firstn {A : Type} (R : A -> A -> Prop) (n : nat) (l : list A) :
  StronglySorted R l -> StronglySorted R (firstn n l).
Proof.
  intros Hs. revert n. induction Hs as [|x l Hl IH Hx]; intros [|n]; simpl;
    try constructor.
  - apply IH.
  - apply Forall_forall. intros y Hy. rewrite Forall_forall in Hx.
    apply Hx. eapply in_firstn; eauto.
Qed.

Lemma sorted_weaken {A : Type} (R R' : A -> A -> Prop) (l : list A) :
  (forall a b, R a b -> R' a b) -> StronglySorted R l -> StronglySorted R' l.
Proof.
  intros HR. induction 1 as [|x l Hl IH Hx]; constructor; [exact IH|].
  eapply Forall_impl; [|exact Hx]. intros y. apply HR.
Qed.

Lemma nodup_firstn {A : Type} (n : nat) (l : list A) :
  NoDup l -> NoDup (firstn n l).
Proof.
  intros H. rewrite <- (firstn_skipn n l) in H.
  eapply NoDup_app_remove_r; eauto.
Qed.

Lemma count_where_ext (p q : row -> bool) (rs : list row) :
  (forall r, p r = q r) -> count_where p rs = count_where q rs.
Proof.
  intros H. unfold count_where. now rewrite (filter_ext _ _ H).
Qed.

(** ORDER BY count DESC leaves the counts descending. *)
Lemma by_count_desc_sorted {K : Type} (l : list (K * Z)) :
  StronglySorted (fun a b => snd b <= snd a) (order_by by_count_desc l).
Proof.
  apply order_by_sorted_by; unfold by_count_desc.
  - intros a b H. apply Z.ltb_lt in H. lia.
  - intros a b H. apply Z.ltb_ge in H. lia.
  - intros a b c. lia.
Qed.

Lemma pairs_map_id {K : Type} (l : list (K * Z)) :
  map (fun kc => (fst kc, snd kc)) l = l.
Proof.
  induction l as [|[k n] l IH]; simpl; congruence.
Qed.

Section TopCounts.
Variable column : row -> string.
Variable rs : list row.

Let groups := group_count String.compare (map column rs).
Let ranked := order_by by_count_desc groups.

Lemma group_in_count (k : string) (n : Z) :
  In (k, n) groups ->
  0 < n /\ n = count_where (fun r => String.eqb k (column r)) rs.
Proof.
  intros Hin.
  assert (Hn : n = tally String.compare k (map column rs)).
  { apply (group_count_exact String.compare string_compare_eq
             String.compare_antisym string_compare_trans _ _ _ Hin). }
  split.
  - rewrite Hn. apply (tally_pos String.compare string_compare_eq).
    apply (keys_group_count String.compare string_compare_eq).
    change k with (fst (k, n)). now apply in_map.
  - rewrite Hn, tally_map. apply count_where_ext.
    intros r. apply same_string.
Qed.

Lemma ranked_nodup : NoDup (map fst ranked).
Proof.
  eapply Permutation_NoDup.
  - apply Permutation_map, order_by_perm.
  - apply (group_count_nodup String.compare string_compare_eq
             String.compare_antisym string_compare_trans).
Qed.

Lemma top_counts_nodup : NoDup (map fst (top_counts column rs)).
Proof.
  unfold top_counts. rewrite <- firstn_map.
  apply nodup_firstn, ranked_nodup.
Qed.

Lemma top_counts_dict :
  comprehension (fun g => g) (top_counts column rs) = top_counts column rs.
Proof.
  rewrite comprehension_distinct; [apply pairs_map_id|].
  apply top_counts_nodup.
Qed.

Lemma top_counts_spec : top_five_of column rs (top_counts column rs).
Proof.
  unfold top_five_of, top_counts. fold groups. fold ranked.
  assert (Hsorted : StronglySorted (fun a b => snd b <= snd a) ranked)
    by apply by_count_desc_sorted.
  repeat apply conj.
  - apply firstn_le_length.
  - apply top_counts_nodup.
  - apply sorted_firstn. exact Hsorted.
  - intros k n Hin. apply group_in_count.
    apply (order_by_in by_count_desc). eapply in_firstn; eauto.
  - intros k Hk Hout.
    assert (Hg : In (k, tally String.compare k (map column rs)) ranked).
    { apply order_by_in.
      apply (group_count_complete String.compare string_compare_eq
               String.compare_antisym string_compare_trans _ _ Hk). }
    assert (Hcut : In (k, tally String.compare k (map column rs))
                      (skipn 5 ranked)).
    { rewrite <- (firstn_skipn 5 ranked) in Hg.
      apply in_app_or in Hg. destruct Hg as [Hg|Hg]; [|exact Hg].
      exfalso. apply Hout.
      change k with (fst (k, tally String.compare k (map column rs))).
      now apply in_map. }
    split.
    + rewrite length_firstn. apply Nat.min_l.
      destruct (Nat.le_gt_cases 5 (List.length ranked)) as [H|H];
        [exact H|].
      rewrite skipn_all2 in Hcut by lia. contradiction.
    + intros k' n' Hin.
      pose proof (limit_keeps_best _ 5 ranked _ _ Hsorted Hin Hcut)
        as Hle.
      simpl in Hle.
      rewrite tally_map in Hle.
      erewrite count_where_ext; [exact Hle|].
      intros r. symmetry. apply same_string.
Qed.
End TopCounts.

Lemma statistics_genres (w : world) :
  fault_at 2 w = false ->
  genres (report w) = top_counts genre (books (file w)).
Proof.
  intros Hf. unfold report. cbn [genres]. rewrite Hf. apply top_counts_dict.
Qed.

Lemma statistics_authors (w : world) :
  fault_at 3 w = false ->
  authors (report w) = top_counts author (books (file w)).
Proof.
  intros Hf. unfold report. cbn [authors]. rewrite Hf. apply top_counts_dict.
Qed.

(** C7. When its queries run without fault, the [genres] entry of
    [get_statistics] holds at most five genres, each with its exact number
    of books, in descending order of count, and no genre left out has more
    books than a genre listed; likewise the [authors] entry.  Which of
    several equally frequent values is kept is not determined here. *)
Theorem statistics_top_five (w : world) :
  quiet 5 w ->
  exists s : statistics,
    get_statistics w = (Returned s, skip 5 w)
    /\ top_five_of genre (books (file w)) (genres s)
    /\ top_five_of author (books (file w)) (authors s).
Proof.
  intros Hq. exists (report w). split; [apply get_statistics_eq|].
  rewrite statistics_genres by (eapply quiet_fault_at; eauto).
  rewrite statistics_authors by (eapply quiet_fault_at; eauto).
  split; apply top_counts_spec.
Qed.

Lemma statistics_top_five_witness :
  exists s : statistics,
    get_statistics {| file := sample_library; faults := [] |}
    = (Returned s, skip 5 {| file := sample_library; faults := [] |})
    /\ top_five_of genre (books sample_library) (genres s).
Proof.
  destruct (statistics_top_five {| file := sample_library; faults := [] |})
    as [s [Hs [Hg _]]].
  - constructor.
  - exists s. split; [exact Hs|exact Hg].
Defined.

(* ================================================================== *)
(** * Statistics: books by decade *)
(* ================================================================== *)

Lemma by_key_total (a b : Z * Z) : by_key a b = true \/ by_key b a = true.
Proof. unfold by_key. rewrite !Z.leb_le. lia. Qed.

Lemma by_key_trans (a b c : Z * Z) :
  by_key a b = true -> by_key b c = true -> by_key a c = true.
Proof. unfold by_key. rewrite !Z.leb_le. lia. Qed.

Lemma sorted_strict (l : list Z) :
  StronglySorted Z.le l -> NoDup l -> StronglySorted Z.lt l.
Proof.
  induction 1 as [|x l Hl IH Hx]; intros Hnd; constructor.
  - apply IH. now inversion Hnd.
  - inversion Hnd as [|? ? Hfresh _]; subst.
    rewrite Forall_forall in *. intros y Hy.
    specialize (Hx y Hy). assert (x <> y) by congruence. lia.
Qed.

Lemma sorted_map {A B : Type} (f : A -> B) (R : B -> B -> Prop)
  (l : list A) :
  StronglySorted (fun a b => R (f a) (f b)) l -> StronglySorted R (map f l).
Proof.
  induction 1 as [|x l Hl IH Hx]; simpl; constructor; [exact IH|].
  rewrite Forall_forall in *. intros y Hy.
  apply in_map_iff in Hy. destruct Hy as [a [<- Ha]]. now apply Hx.
Qed.

Lemma nodup_map_inj {A B : Type} (f : A -> B) (l : list A) :
  (forall a b, f a = f b -> a = b) -> NoDup l -> NoDup (map f l).
Proof.
  intros Hinj. induction 1 as [|x l Hx Hl IH]; simpl; constructor;
    [|exact IH].
  intros Hin. apply in_map_iff in Hin. destruct Hin as [y [Hy Hin]].
  apply Hinj in Hy. now subst.
Qed.

Lemma count_where_pos (p : row -> bool) (rs : list row) :
  0 < count_where p rs -> exists r, In r rs /\ p r = true.
Proof.
  unfold count_where. intros H.
  destruct (filter p rs) as [|r l] eqn:E; [simpl in H; lia|].
  exists r. apply filter_In. rewrite E. now left.
Qed.

Section DecadeCounts.
Variable rs : list row.

Let keys := map (fun r => decade (year r)) rs.
Let groups := group_count Z.compare keys.

Lemma decade_group (d n : Z) :
  In (d, n) groups <->
  0 < n /\ n = count_where (fun r => decade (year r) =? d) rs.
Proof.
  assert (Hcount : forall k,
             tally Z.compare k keys
             = count_where (fun r => decade (year r) =? k) rs).
  { intros k. unfold keys. rewrite tally_map. apply count_where_ext.
    intros r. rewrite same_Z. apply Z.eqb_sym. }
  split.
  - intros Hin.
    assert (Hn : n = tally Z.compare d keys)
      by (apply (group_count_exact Z.compare Z.compare_eq_iff
                   Z_compare_antisym Z_compare_trans _ _ _ Hin)).
    split.
    + rewrite Hn. apply (tally_pos Z.compare Z.compare_eq_iff).
      apply (keys_group_count Z.compare Z.compare_eq_iff).
      change d with (fst (d, n)). now apply in_map.
    + now rewrite Hn.
  - intros [Hpos Hn]. rewrite Hn in Hpos.
    apply count_where_pos in Hpos. destruct Hpos as [r [Hr Hd]].
    apply Z.eqb_eq in Hd. rewrite Hn, <- Hcount.
    apply (group_count_complete Z.compare Z.compare_eq_iff
             Z_compare_antisym Z_compare_trans).
    unfold keys. rewrite <- Hd.
    now apply (in_map (fun r => decade (year r))).
Qed.

Lemma decade_counts_nodup : NoDup (map fst (decade_counts rs)).
Proof.
  eapply Permutation_NoDup.
  - apply Permutation_map, order_by_perm.
  - apply (group_count_nodup Z.compare Z.compare_eq_iff
             Z_compare_antisym Z_compare_trans).
Qed.

Lemma decade_counts_ascending :
  StronglySorted Z.lt (map fst (decade_counts rs)).
Proof.
  apply sorted_strict; [|apply decade_counts_nodup].
  apply sorted_map.
  eapply sorted_weaken;
    [|apply (order_by_sorted by_key by_key_total by_key_trans)].
  intros a b. unfold by_key. now rewrite Z.leb_le.
Qed.

Lemma decade_counts_in (d n : Z) :
  In (d, n) (decade_counts rs) <->
  0 < n /\ n = count_where (fun r => decade (year r) =? d) rs.
Proof.
  unfold decade_counts. rewrite order_by_in. apply decade_group.
Qed.

Lemma decade_labels_nodup :
  NoDup (map (fun kc => decade_label (fst kc)) (decade_counts rs)).
Proof.
  rewrite <- (map_map fst decade_label).
  apply nodup_map_inj; [apply decade_label_inj|apply decade_counts_nodup].
Qed.
End DecadeCounts.

Lemma statistics_decades (w : world) :
  fault_at 4 w = false ->
  decades (report w) = map labelled (decade_counts (books (file w))).
Proof.
  intros Hf. unfold report. cbn [decades]. rewrite Hf.
  apply comprehension_distinct, decade_labels_nodup.
Qed.

Lemma decade_floor (y : Z) : 0 <= y -> decade y = spec_decade y.
Proof.
  intros Hy. unfold decade, spec_decade.
  now rewrite Z.quot_div_nonneg by lia.
Qed.

(** C6, as the code has it.  When its queries run without fault, the
    [decades] entry of [get_statistics] has one labelled entry per decade
    key present in the table, with the exact number of books of that key
    and no limit on their number, in strictly ascending order of the key.
    The key is [(year / 10) * 10] with the engine's integer division, which
    truncates toward zero; for a year that is not negative this is
    [floor(year / 10) * 10]. *)
Theorem statistics_decades_bucket (w : world) :
  quiet 5 w ->
  exists s : statistics,
    get_statistics w = (Returned s, skip 5 w)
    /\ decades s = map labelled (decade_counts (books (file w)))
    /\ StronglySorted Z.lt (map fst (decade_counts (books (file w))))
    /\ (forall d n,
          In (d, n) (decade_counts (books (file w))) <->
          0 < n
          /\ n = count_where (fun r => decade (year r) =? d)
                             (books (file w)))
    /\ (forall r, In r (books (file w)) ->
          dict_get (decade_label (decade (year r))) (decades s)
          = Some (count_where
                    (fun r' => decade (year r') =? decade (year r))
                    (books (file w))))
    /\ (forall y, decade y = Z.quot y 10 * 10)
    /\ (forall y, 0 <= y -> decade y = spec_decade y).
Proof.
  intros Hq. exists (report w). split; [apply get_statistics_eq|].
  rewrite statistics_decades by (eapply quiet_fault_at; eauto).
  repeat apply conj.
  - reflexivity.
  - apply decade_counts_ascending.
  - apply decade_counts_in.
  - intros r Hr. apply dict_get_member.
    + rewrite map_map. apply decade_labels_nodup.
    + apply (in_map labelled _
               (decade (year r),
                count_where (fun r' => decade (year r') =? decade (year r))
                            (books (file w)))).
      apply decade_counts_in. split; [|reflexivity].
      unfold count_where.
      assert (Hin : In r (filter (fun r' => decade (year r')
                                            =? decade (year r))
                                 (books (file w))))
        by (apply filter_In; split; [exact Hr|apply Z.eqb_refl]).
      destruct (filter _ (books (file w))); [contradiction|simpl; lia].
  - reflexivity.
  - apply decade_floor.
Qed.

Lemma statistics_decades_bucket_witness :
  exists s : statistics,
    get_statistics {| file := sample_library; faults := [] |}
    = (Returned s, skip 5 {| file := sample_library; faults := [] |})
    /\ decades s = [("2000s", 2); ("2010s", 1)].
Proof.
  destruct (statistics_decades_bucket
              {| file := sample_library; faults := [] |})
    as [s [Hs [H _]]].
  - constructor.
  - exists s. split; [exact Hs|]. rewrite H. reflexivity.
Defined.

(** C6, as the specification has it, fails for years before 0: a book of
    year -19 is counted under the key -10, label ["-10s"], whereas
    [floor(-19 / 10) * 10] is -20, a key the report does not have. *)
Lemma decade_truncates_toward_zero :
  let w := {| file :=
                {| books := [{| id := 1; title := "Aeneid";
                                author := "Virgil"; year := -19;
                                genre := "Epic"; read := 1 |}];
                   sequence := 1 |};
              faults := [] |} in
  exists s : statistics,
    get_statistics w = (Returned s, skip 5 w)
    /\ decades s = [("-10s", 1)]
    /\ spec_decade (-19) = -20
    /\ dict_get (decade_label (spec_decade (-19))) (decades s) = None.
Proof.
  cbv zeta. eexists. split; [apply get_statistics_eq|].
  repeat split.
Qed.


(* ================================================================== *)
(** * The LIKE operator on the patterns of [search_books] *)
(* ================================================================== *)

Ltac each_char c :=
  destruct c as [[|] [|] [|] [|] [|] [|] [|] [|]]; vm_compute.






Lemma like_percent (rest text : string) :
  Text.pattern_compare (String Text.percent rest) text
  = Text.pattern_compare rest text
    || match text with
       | EmptyString => false
       | String _ text' => Text.pattern_compare (String Text.percent rest) text'
       end.
Proof. destruct text; reflexivity. Qed.



Lemma like_only_percent (text : string) :
  Text.pattern_compare (String Text.percent EmptyString) text = true.
Proof.
  induction text as [|c text IH]; [reflexivity|].
  rewrite like_percent, IH. apply orb_true_r.
Qed.













(* ================================================================== *)
(** * Search *)
(* ================================================================== *)

Lemma by_column_total (ty : string) (a b : row) :
  by_column ty a b = true \/ by_column ty b a = true.
Proof. apply String.leb_total. Qed.

Lemma by_column_trans (ty : string) (a b c : row) :
  by_column ty a b = true -> by_column ty b c = true ->
  by_column ty a c = true.
Proof. apply string_leb_trans. Qed.

(** The rows a fault-free search fetches: the rows selected by the pattern,
    ordered by the searched column. *)
Lemma search_books_rows (ty q : string) (w : world) :
  fault_at 0 w = false ->
  search_books ty q w
  = (Returned
       (map to_book
          (order_by (by_column ty)
             (filter (fun r =>
                        Text.like (Text.wrap_percent (Text.py_lower q))
                                  (Text.sql_lower (search_column ty r)))
                     (books (file w))))),
     skip 1 w).
Proof.
  intros Hf. rewrite search_books_eq, Hf. reflexivity.
Qed.





(** C9. Some search strings with [%] or [_] return rows whose column does
    not contain the string: the string goes unescaped into the LIKE
    pattern, where these characters are wildcards.  Searching titles for
    ["a_c"] returns the book titled ["abc"], and so does ["a%c"]. *)
Theorem wildcards_are_not_literal :
  exists (w : world) (q q' : string) (b : book) (found found' : list book),
    fst (search_books "Title" q w) = Returned found
    /\ fst (search_books "Title" q' w) = Returned found'
    /\ In b found
    /\ In b found'
    /\ Text.contains q (book_title b) = false
    /\ Text.contains_nocase q (book_title b) = false
    /\ Text.contains_nocase q' (book_title b) = false
    /\ Text.contains (String Text.underscore EmptyString) q = true
    /\ Text.contains (String Text.percent EmptyString) q' = true
    /\ q = "a_c" /\ q' = "a%c" /\ book_title b = "abc".
Proof.
  exists {| file := sample_library; faults := [] |}, "a_c", "a%c",
    {| book_id := 4; book_title := "abc"; book_author := "Anonymous";
       book_year := 2011; book_genre := "Primer"; book_read := false |}.
  eexists. eexists.
  split; [vm_compute; reflexivity|]. split; [vm_compute; reflexivity|].
  repeat split; vm_compute; auto.
Qed.

(* ================================================================== *)
(** * Rowids along a history of calls *)
(* ================================================================== *)

Lemma max_id_le (s : Z) (rs : list row) :
  0 <= s -> Forall (fun r => 0 < id r <= s) rs -> max_id rs <= s.
Proof.
  intros Hs. induction 1 as [|r rs Hr Hrs IH]; simpl; lia.
Qed.

Lemma next_rowid_well_formed (d : database) :
  well_formed d -> next_rowid d = sequence d + 1.
Proof.
  intros [[Hs _] [_ Hb]]. unfold next_rowid.
  pose proof (max_id_le _ _ Hs Hb). lia.
Qed.

(** The ids of a well-formed file are ones the driver binds. *)
Lemma well_formed_ids_fit (d : database) (r : row) :
  well_formed d -> In r (books d) -> fits_integer (id r) = true.
Proof.
  intros [[_ Hs] [_ Hb]] Hr. rewrite Forall_forall in Hb.
  specialize (Hb r Hr). unfold fits_integer.
  apply andb_true_iff. split; apply Z.leb_le; [|lia].
  assert (- 2 ^ 63 < 0) by reflexivity. lia.
Qed.

Lemma sorted_snoc (l : list Z) (x : Z) :
  StronglySorted Z.lt l -> Forall (fun y => y < x) l ->
  StronglySorted Z.lt (l ++ [x]).
Proof.
  induction 1 as [|y l Hl IH Hy]; simpl; intros Hx.
  - repeat constructor.
  - inversion Hx; subst. constructor; [now apply IH|].
    apply Forall_app. split; [exact Hy|]. now repeat constructor.
Qed.

Lemma sorted_filter {A : Type} (f : A -> Z) (p : A -> bool) (l : list A) :
  StronglySorted Z.lt (map f l) -> StronglySorted Z.lt (map f (filter p l)).
Proof.
  induction l as [|x l IH]; simpl; intros Hs; [constructor|].
  apply StronglySorted_inv in Hs. destruct Hs as [Hl Hx].
  destruct (p x); simpl; [|now apply IH].
  constructor; [now apply IH|].
  rewrite Forall_forall in *. intros y Hy. apply Hx.
  apply in_map_iff in Hy. destruct Hy as [z [<- Hz]].
  apply filter_In in Hz. now apply in_map.
Qed.

Lemma inserted_well_formed (d : database) (t a : string) (y : Z)
  (g : string) (r : bool) :
  well_formed d -> room d -> well_formed (inserted d t a y g r).
Proof.
  intros Hwf Hroom. pose proof (next_rowid_well_formed d Hwf) as Hn.
  unfold room in Hroom. rewrite Hn in Hroom.
  destruct Hwf as [Hs [Hsorted Hb]].
  unfold well_formed, inserted. cbn [books sequence]. rewrite Hn.
  repeat apply conj.
  - lia.
  - exact Hroom.
  - rewrite map_app. simpl. apply sorted_snoc; [exact Hsorted|].
    apply Forall_map. eapply Forall_impl; [|exact Hb]. simpl. intros; lia.
  - apply Forall_app. split.
    + eapply Forall_impl; [|exact Hb]. simpl. intros; lia.
    + repeat constructor; simpl; lia.
Qed.

Lemma deleted_well_formed (d : database) (i : Z) :
  well_formed d -> well_formed (deleted d i).
Proof.
  intros [Hs [Hsorted Hb]]. unfold well_formed, deleted.
  cbn [books sequence]. split; [exact Hs|split].
  - now apply sorted_filter.
  - rewrite Forall_forall in *. intros r Hr. apply Hb.
    now apply filter_In in Hr.
Qed.

(** What [add_book_to_db] and [delete_book] leave behind, case by case. *)
Lemma add_book_to_db_world
  (t a : string) (y : Z) (g : string) (r : bool) (w : world) :
  snd (add_book_to_db t a y g r w) = skip 1 w
  \/ (room (file w)
      /\ snd (add_book_to_db t a y g r w)
         = {| file := inserted (file w) t a y g r;
              faults := skipn 1 (faults w) |}).
Proof.
  destruct (fault_at 0 w) eqn:Hf.
  - left. now rewrite add_book_to_db_fault.
  - destruct (fits_integer y) eqn:Hy.
    + destruct (Z.le_gt_cases (next_rowid (file w)) max_rowid) as [H|H].
      * right. split; [exact H|]. now rewrite add_book_to_db_eq.
      * left. rewrite add_book_to_db_full; [reflexivity|assumption..|].
        unfold room. lia.
    + left. now rewrite add_book_to_db_overflow.
Qed.

Lemma delete_book_world (i : Z) (w : world) :
  snd (delete_book i w) = skip 1 w
  \/ snd (delete_book i w)
     = {| file := deleted (file w) i; faults := skipn 1 (faults w) |}.
Proof.
  destruct (fault_at 0 w) eqn:Hf.
  - left. now rewrite delete_book_fault.
  - destruct (fits_integer i) eqn:Hi.
    + right. now rewrite delete_book_eq.
    + left. now rewrite delete_book_overflow.
Qed.

Lemma bind_unit_world {A : Type} (m : M A) (w : world) :
  snd ((_ <- m ;; ret tt) w) = snd (m w).
Proof. unfold bind. destruct (m w) as [[x|e] w']; reflexivity. Qed.

(** What a call can do to the file: nothing, an insert or a delete. *)
Lemma run_call_file (c : call) (w : world) :
  file (snd (run_call c w)) = file w
  \/ (exists t a y g r,
        room (file w)
        /\ file (snd (run_call c w)) = inserted (file w) t a y g r)
  \/ (exists i, file (snd (run_call c w)) = deleted (file w) i).
Proof.
  destruct c as [t a y g r| |ty q|i|]; unfold run_call;
    rewrite bind_unit_world.
  - destruct (add_book_to_db_world t a y g r w) as [->|[Hroom ->]].
    + now left.
    + right; left. now exists t, a, y, g, r.
  - left. now rewrite get_all_books_eq.
  - left. now rewrite search_books_eq.
  - destruct (delete_book_world i w) as [->| ->].
    + now left.
    + right; right. now exists i.
  - left. now rewrite get_statistics_eq.
Qed.

Lemma run_call_well_formed (c : call) (w : world) :
  well_formed (file w) ->
  well_formed (file (snd (run_call c w)))
  /\ sequence (file w) <= sequence (file (snd (run_call c w))).
Proof.
  intros Hwf.
  destruct (run_call_file c w)
    as [->|[[t [a [y [g [r [Hroom ->]]]]]]|[i ->]]].
  - split; [exact Hwf|lia].
  - split; [now apply inserted_well_formed|].
    simpl. rewrite next_rowid_well_formed by exact Hwf. lia.
  - split; [now apply deleted_well_formed|simpl; lia].
Qed.

Lemma run_calls_well_formed (cs : list call) (w : world) :
  well_formed (file w) ->
  well_formed (file (run_calls cs w))
  /\ sequence (file w) <= sequence (file (run_calls cs w)).
Proof.
  revert w. induction cs as [|c cs IH]; simpl; intros w Hwf.
  - split; [exact Hwf|lia].
  - destruct (run_call_well_formed c w Hwf) as [Hwf' Hle].
    destruct (IH _ Hwf') as [Hwf'' Hle']. split; [exact Hwf''|lia].
Qed.


(* ================================================================== *)
(** * Add, then list or search *)
(* ================================================================== *)

Lemma py_bool_b2z (r : bool) : py_bool (Z.b2z r) = r.
Proof. now destruct r. Qed.






Lemma get_all_books_rows (w : world) :
  fault_at 0 w = false ->
  get_all_books w
  = (Returned (map to_book (order_by by_title (books (file w)))), skip 1 w).
Proof.
  intros Hf. rewrite get_all_books_eq. now rewrite Hf.
Qed.




(** C1 at a title with an accented capital.  In an empty library the book
    titled "École" (its first letter is U+00C9) is added and listed with
    the fields given, under id 1; a title search for that very title
    returns nothing, because the search string is lower-cased by
    [str.lower] ("école") while the engine leaves the stored capital as it
    is and compares letters beyond ASCII exactly.  Searching for "cole"
    finds the book. *)
Theorem exact_title_search_misses_accented_capital :
  let ecole := String "201" "cole" in
  let w := {| file := Sqlite.empty; faults := [] |} in
  let w' := snd (add_book_to_db ecole "Anonyme" 2005 "Essai" true w) in
  fst (add_book_to_db ecole "Anonyme" 2005 "Essai" true w) = Returned true
  /\ fst (get_all_books w')
     = Returned [shown 1 ecole "Anonyme" 2005 "Essai" true]
  /\ fst (search_books "Title" ecole w') = Returned []
  /\ fst (search_books "Title" "cole" w')
     = Returned [shown 1 ecole "Anonyme" 2005 "Essai" true]
  /\ Text.py_lower ecole = String "233" "cole"
  /\ Text.sql_lower ecole = ecole.
Proof.
  cbv zeta. repeat split.
Qed.

(* ================================================================== *)
(** * The worked examples of the specification *)
(* ================================================================== *)

Example search_great_and_gatsby :
  let w := snd (add_book_to_db "The Great Gatsby" "F. Scott Fitzgerald" 2004
                  "Novel" true fresh_world) in
  fst (search_books "Title" "great" w)
  = Returned [shown 1 "The Great Gatsby" "F. Scott Fitzgerald" 2004
                      "Novel" true]
  /\ fst (search_books "Title" "GATSBY" w)
     = Returned [shown 1 "The Great Gatsby" "F. Scott Fitzgerald" 2004
                         "Novel" true]
  /\ fst (search_books "Title" "zzz" w) = Returned [].
Proof. cbv zeta. repeat split. Qed.

Example decades_of_four_years :
  exists s : statistics,
    fst (get_statistics (run_calls four_years fresh_world)) = Returned s
    /\ decades s = [("1990s", 2); ("2000s", 2)].
Proof. eexists. split; reflexivity. Qed.

(** Seven genres with distinct counts: the five largest, largest first. *)
Example genres_of_seven :
  exists s : statistics,
    fst (get_statistics (run_calls seven_genres fresh_world)) = Returned s
    /\ genres s
       = [("Novel", 7); ("Travel", 6); ("Poetry", 5); ("Essay", 4);
          ("Crime", 3)].
Proof. eexists. split; vm_compute; reflexivity. Qed.

Example ids_are_not_reused :
  exists listing : list book,
    fst (get_all_books
           (run_calls
              [ CallAdd "A" "Anonymous" 2001 "Novel" false;
                CallAdd "B" "Anonymous" 2002 "Novel" false;
                CallDelete 2;
                CallAdd "C" "Anonymous" 2003 "Novel" false ]
              fresh_world)) = Returned listing
    /\ map book_id listing = [1; 3].
Proof. eexists. split; reflexivity. Qed.

Example initialize_database_twice (found : option database) :
  initialize_database (Some (initialize_database found))
  = initialize_database found.
Proof. reflexivity. Qed.

(* ================================================================== *)
(** * The listing, and how add, delete and list compose *)
(* ================================================================== *)

Lemma by_title_total (a b : row) :
  by_title a b = true \/ by_title b a = true.
Proof. apply String.leb_total. Qed.

Lemma by_title_trans (a b c : row) :
  by_title a b = true -> by_title b c = true -> by_title a c = true.
Proof. apply string_leb_trans. Qed.

(** X2.  [get_all_books] without a fault returns every row of the table once,
    in ascending order of title (code point order, capitals first), with
    the [read] column turned into a boolean; an empty table gives the
    empty list. *)
Theorem listing_is_the_sorted_table (w : world) :
  quiet 1 w ->
  exists rows : list row,
    get_all_books w = (Returned (map to_book rows), skip 1 w)
    /\ Permutation rows (books (file w))
    /\ StronglySorted
         (fun a b => String.leb (title a) (title b) = true) rows
    /\ List.length (map to_book rows) = List.length (books (file w))
    /\ (books (file w) = [] -> map to_book rows = []).
Proof.
  intros Hq.
  assert (Hf : fault_at 0 w = false) by (eapply quiet_fault_at; eauto).
  exists (order_by by_title (books (file w))).
  split; [|split; [|split; [|split]]].
  - now apply get_all_books_rows.
  - symmetry. apply order_by_perm.
  - apply (order_by_sorted by_title by_title_total by_title_trans).
  - now rewrite length_map, order_by_length.
  - intros ->. reflexivity.
Qed.

Lemma listing_is_the_sorted_table_witness :
  exists listing : list book,
    fst (get_all_books {| file := sample_library; faults := [] |})
    = Returned listing
    /\ map book_title listing = ["Emma"; "The Great Gatsby"; "abc"].
Proof.
  destruct (listing_is_the_sorted_table
              {| file := sample_library; faults := [] |})
    as [rows [H _]].
  - constructor.
  - exists (map to_book rows). split; [now rewrite H|].
    assert (E : fst (get_all_books
                       {| file := sample_library; faults := [] |})
                = Returned (map to_book rows)) by now rewrite H.
    injection E as E. rewrite <- E. reflexivity.
Defined.

Lemma sorted_lt_nodup (l : list Z) : StronglySorted Z.lt l -> NoDup l.
Proof.
  induction 1 as [|x l Hl IH Hx]; constructor; [|exact IH].
  intros Hin. rewrite Forall_forall in Hx. specialize (Hx _ Hin). lia.
Qed.

Lemma well_formed_ids_nodup (d : database) :
  well_formed d -> NoDup (map id (books d)).
Proof. intros [_ [Hs _]]. now apply sorted_lt_nodup. Qed.

Lemma sorted_selection_ids (le : row -> row -> bool) (keep : row -> bool)
  (rs : list row) :
  NoDup (map id rs) ->
  NoDup (map book_id (map to_book (order_by le (filter keep rs)))).
Proof.
  intros Hnd. rewrite map_map. cbn [to_book book_id].
  eapply Permutation_NoDup.
  - apply Permutation_map, order_by_perm.
  - clear le. induction rs as [|r rs IH]; simpl; [constructor|].
    inversion Hnd as [|? ? Hfresh Hnd']; subst.
    destruct (keep r); simpl; [|now apply IH].
    constructor; [|now apply IH].
    intros Hin. apply Hfresh.
    apply in_map_iff in Hin. destruct Hin as [x [Hx Hin]].
    apply filter_In in Hin. rewrite <- Hx. now apply in_map.
Qed.

Lemma listed_ids_nodup (d : database) :
  NoDup (map id (books d)) -> NoDup (map book_id (map to_book (listed d))).
Proof.
  intros Hnd. unfold listed.
  rewrite <- (filter_all (fun _ => true) (books d)) by reflexivity.
  now apply sorted_selection_ids.
Qed.

Lemma selected_ids_nodup (ty q : string) (d : database) :
  NoDup (map id (books d)) ->
  NoDup (map book_id (map to_book (selected ty q d))).
Proof. intros Hnd. unfold selected. now apply sorted_selection_ids. Qed.

(** X3.  After any sequence of calls on a well-formed file, under any fault
    schedule, the file is well-formed again (rowids positive, pairwise
    distinct, none above the counter), and every listing and every search
    result shows pairwise distinct ids. *)
Theorem ids_stay_distinct (found : database) (cs : list call)
  (fs : list bool) (search_type search_query : string) :
  well_formed found ->
  let w := run_calls cs {| file := found; faults := fs |} in
  exists listing results : list book,
    well_formed (file w)
    /\ get_all_books w = (Returned listing, skip 1 w)
    /\ search_books search_type search_query w
       = (Returned results, skip 1 w)
    /\ NoDup (map book_id listing)
    /\ NoDup (map book_id results).
Proof.
  intros Hfound w.
  assert (Hwf : well_formed (file w))
    by (apply run_calls_well_formed; exact Hfound).
  pose proof (well_formed_ids_nodup _ Hwf) as Hnd.
  eexists. eexists.
  split; [exact Hwf|].
  split; [apply get_all_books_eq|].
  split; [apply search_books_eq|].
  split.
  - destruct (fault_at 0 w); [constructor|now apply listed_ids_nodup].
  - destruct (fault_at 0 w); [constructor|now apply selected_ids_nodup].
Qed.

Lemma ids_stay_distinct_witness :
  exists listing : list book,
    fst (get_all_books
           (run_calls [CallDelete 1; CallAdd "B" "b" 2001 "g" true]
              {| file := sample_library; faults := [false; true] |}))
    = Returned listing
    /\ NoDup (map book_id listing).
Proof.
  destruct (ids_stay_distinct sample_library
              [CallDelete 1; CallAdd "B" "b" 2001 "g" true] [false; true]
              "Title" "a") as [listing [results [_ [Hl [_ [H _]]]]]].
  - unfold well_formed, sample_library; simpl.
    repeat apply conj; try lia; try (vm_compute; discriminate);
      repeat constructor; simpl; lia.
  - exists listing. split; [now rewrite Hl|exact H].
Defined.

(** X4.  A delete of an id that fits a signed 64-bit integer, without
    storage fault, reports success and takes away exactly the books under
    that id: the listing afterwards holds the books that a listing made in
    its place would have shown, except those with that id.  The
    AUTOINCREMENT counter stays, so the id is not handed out again, and
    deleting the same id once more changes nothing. *)
Theorem delete_removes_exactly_that_id (i : Z) (w : world) :
  sql_integer i ->
  quiet 2 w ->
  exists (w' : world) (listing listing' : list book),
    delete_book i w = (Returned true, w')
    /\ get_all_books w = (Returned listing, skip 1 w)
    /\ get_all_books w' = (Returned listing', skip 1 w')
    /\ (forall b, In b listing' <-> In b listing /\ book_id b <> i)
    /\ sequence (file w') = sequence (file w)
    /\ file (snd (delete_book i w')) = file w'.
Proof.
  intros Hi Hq.
  assert (Hf0 : fault_at 0 w = false)
    by (eapply quiet_fault_at; [exact Hq|lia]).
  assert (Hf1 : fault_at 1 w = false)
    by (eapply quiet_fault_at; [exact Hq|lia]).
  set (w' := {| file := deleted (file w) i;
                faults := skipn 1 (faults w) |}).
  assert (Hf' : fault_at 0 w' = false).
  { change (fault_at 0 (skip 1 w) = false). now rewrite fault_at_skip. }
  exists w'. eexists. eexists.
  split; [now apply delete_book_eq|].
  split; [now apply get_all_books_rows|].
  split; [now apply get_all_books_rows|].
  split; [|split].
  - intros b. cbn [file w' deleted books].
    rewrite !in_map_iff. split.
    + intros [r [<- Hr]]. apply order_by_in, filter_In in Hr.
      destruct Hr as [Hr Hne]. apply negb_true_iff, Z.eqb_neq in Hne.
      split; [|exact Hne]. exists r. split; [reflexivity|].
      now apply order_by_in.
    + intros [[r [<- Hr]] Hne]. exists r. split; [reflexivity|].
      apply order_by_in, filter_In. apply order_by_in in Hr.
      split; [exact Hr|]. now apply negb_true_iff, Z.eqb_neq.
  - reflexivity.
  - rewrite delete_book_eq by assumption.
    cbn [snd file w' deleted books sequence]. unfold deleted. f_equal.
    apply filter_all. intros r Hr.
    now apply filter_In in Hr.
Qed.

Lemma delete_removes_exactly_that_id_witness :
  exists (w' : world) (listing' : list book),
    delete_book 2 {| file := sample_library; faults := [] |}
    = (Returned true, w')
    /\ get_all_books w' = (Returned listing', skip 1 w')
    /\ forall b, In b listing' -> book_id b <> 2.
Proof.
  destruct (delete_removes_exactly_that_id 2
              {| file := sample_library; faults := [] |})
    as [w' [listing [listing' [Hd [_ [Hl [H _]]]]]]].
  - reflexivity.
  - constructor.
  - exists w', listing'. split; [exact Hd|]. split; [exact Hl|].
    intros b Hb. now apply H in Hb.
Defined.

(** X5.  On a well-formed file with a rowid left to hand out, adding a
    book (year within the signed 64-bit range, no storage fault) and then
    deleting the id it was given leaves the rows of the table as they
    were, while the next id to hand out has moved on by one: an id is
    never given twice. *)
Theorem add_then_delete_restores_rows
  (t a : string) (y : Z) (g : string) (r : bool) (w : world) :
  well_formed (file w) ->
  sql_integer y ->
  quiet 2 w ->
  room (file w) ->
  exists w1 w2 : world,
    add_book_to_db t a y g r w = (Returned true, w1)
    /\ delete_book (next_rowid (file w)) w1 = (Returned true, w2)
    /\ books (file w2) = books (file w)
    /\ next_rowid (file w2) = next_rowid (file w) + 1.
Proof.
  intros Hwf Hy Hq Hroom.
  assert (Hf0 : fault_at 0 w = false)
    by (eapply quiet_fault_at; [exact Hq|lia]).
  assert (Hf1 : fault_at 1 w = false)
    by (eapply quiet_fault_at; [exact Hq|lia]).
  set (w1 := {| file := inserted (file w) t a y g r;
                faults := skipn 1 (faults w) |}).
  assert (Hf' : fault_at 0 w1 = false).
  { change (fault_at 0 (skip 1 w) = false). now rewrite fault_at_skip. }
  assert (Hi : next_rowid (file w) = sequence (file w) + 1)
    by (apply next_rowid_well_formed; exact Hwf).
  assert (Hfit : fits_integer (next_rowid (file w)) = true).
  { unfold room in Hroom. destruct Hwf as [[Hs _] _].
    unfold fits_integer. apply andb_true_iff.
    split; apply Z.leb_le; [|exact Hroom].
    assert (- 2 ^ 63 < 0) by reflexivity. lia. }
  set (w2 := {| file := deleted (file w1) (next_rowid (file w));
                faults := skipn 1 (faults w1) |}).
  assert (Hrows : books (file w2) = books (file w)).
  { cbn [file w2 w1 inserted deleted books].
    rewrite filter_app. simpl. rewrite Z.eqb_refl. simpl.
    rewrite app_nil_r. apply filter_all. intros x Hx.
    destruct Hwf as [_ [_ Hb]]. rewrite Forall_forall in Hb.
    specialize (Hb _ Hx). apply negb_true_iff, Z.eqb_neq. lia. }
  exists w1, w2.
  split; [now apply add_book_to_db_eq|].
  split; [now apply delete_book_eq|].
  split; [exact Hrows|].
  unfold next_rowid at 1. rewrite Hrows.
  cbn [file w2 w1 inserted deleted sequence].
  destruct Hwf as [[Hs _] [_ Hb]].
  pose proof (max_id_le _ _ Hs Hb). lia.
Qed.

Lemma add_then_delete_restores_rows_witness :
  exists w1 w2 : world,
    add_book_to_db "Walden" "H. D. Thoreau" 2012 "Essay" true
      {| file := sample_library; faults := [] |} = (Returned true, w1)
    /\ delete_book 5 w1 = (Returned true, w2)
    /\ books (file w2) = books sample_library.
Proof.
  destruct (add_then_delete_restores_rows "Walden" "H. D. Thoreau" 2012
              "Essay" true {| file := sample_library; faults := [] |})
    as [w1 [w2 [Ha [Hd [H _]]]]].
  - unfold well_formed, sample_library; simpl.
    repeat apply conj; try lia; try (vm_compute; discriminate);
      repeat constructor; simpl; lia.
  - reflexivity.
  - constructor.
  - unfold room. vm_compute. discriminate.
  - exists w1, w2. split; [exact Ha|]. split; [exact Hd|exact H].
Defined.

(* ================================================================== *)
(** * More on search and on the statistics *)
(* ================================================================== *)

Lemma like_two_percents (text : string) :
  Text.like (Text.wrap_percent EmptyString) text = true.
Proof.
  unfold Text.like, Text.wrap_percent. simpl append.
  change (Text.c_string
            (String Text.percent (String Text.percent EmptyString)))
    with (String Text.percent (String Text.percent EmptyString)).
  now rewrite like_percent, like_only_percent.
Qed.

(** X6.  The empty search string selects every row: a title search for it is
    the listing itself, under every fault schedule, and an author search
    returns every book once, ordered by author. *)
Theorem empty_search_returns_everything (search_type : string) (w : world) :
  search_books "Title" "" w = get_all_books w
  /\ (quiet 1 w ->
      exists rows : list row,
        search_books search_type "" w
        = (Returned (map to_book rows), skip 1 w)
        /\ Permutation rows (books (file w))
        /\ StronglySorted
             (fun a b => String.leb (search_column search_type a)
                                    (search_column search_type b) = true)
             rows).
Proof.
  assert (Hall : forall (col : row -> string) (rs : list row),
             filter (fun r => Text.like
                                (Text.wrap_percent (Text.py_lower ""))
                                (Text.sql_lower (col r))) rs = rs).
  { intros col rs. apply filter_all. intros r _. apply like_two_percents. }
  split.
  - rewrite search_books_eq, get_all_books_eq. f_equal. f_equal.
    destruct (fault_at 0 w); [reflexivity|].
    unfold selected, listed. f_equal. f_equal. apply (Hall title).
  - intros Hq.
    assert (Hf : fault_at 0 w = false) by (eapply quiet_fault_at; eauto).
    exists (order_by (by_column search_type) (books (file w))).
    rewrite search_books_rows by exact Hf. rewrite Hall.
    split; [reflexivity|]. split.
    + symmetry. apply order_by_perm.
    + apply (order_by_sorted (by_column search_type)
               (by_column_total search_type) (by_column_trans search_type)).
Qed.

Lemma empty_search_returns_everything_witness :
  exists results : list book,
    fst (search_books "Author" ""
           {| file := sample_library; faults := [] |}) = Returned results
    /\ map book_author results
       = ["Anonymous"; "F. Scott Fitzgerald"; "Jane Austen"].
Proof.
  destruct (empty_search_returns_everything "Author"
              {| file := sample_library; faults := [] |}) as [_ H].
  destruct H as [rows [H _]]; [constructor|].
  exists (map to_book rows). split; [now rewrite H|].
  assert (E : fst (search_books "Author" ""
                     {| file := sample_library; faults := [] |})
              = Returned (map to_book rows)) by now rewrite H.
  injection E as E. rewrite <- E. reflexivity.
Defined.

Lemma count_where_bounds (p : row -> bool) (rs : list row) :
  0 <= count_where p rs <= Z.of_nat (List.length rs).
Proof.
  unfold count_where. pose proof (filter_length_le p rs). lia.
Qed.

(** X7.  Whatever the faults and whatever the table, [get_statistics]
    returns a report, and its two counts are not negative.  When the two
    counting queries succeed, the number of books read does not exceed the
    total.  The percentage is the integer 0 exactly when the total is 0,
    which is the case exactly when the table is empty or the counting
    query failed; otherwise it is a float. *)
Theorem statistics_counts_are_consistent (w : world) :
  exists s : statistics,
    get_statistics w = (Returned s, skip 5 w)
    /\ 0 <= total_books s
    /\ 0 <= read_books s
    /\ (quiet 2 w -> read_books s <= total_books s)
    /\ (read_percentage s = IntNumber 0 <-> total_books s = 0)
    /\ (total_books s = 0 <-> faulted 0 w \/ books (file w) = [])
    /\ (total_books s <> 0 ->
        exists x : float, read_percentage s = FloatNumber x).
Proof.
  exists (report w). split; [apply get_statistics_eq|].
  pose proof (count_where_bounds (fun r => read r =? 1) (books (file w)))
    as Hb.
  unfold faulted. fold (fault_at 0 w).
  unfold report. cbn [total_books read_books read_percentage].
  set (n := Z.of_nat (List.length (books (file w)))) in *.
  assert (Hn : n = 0 <-> books (file w) = []).
  { unfold n. destruct (books (file w)); simpl; split; intros H;
      try reflexivity; try discriminate; lia. }
  split; [|split; [|split; [|split; [|split]]]].
  - destruct (fault_at 0 w); lia.
  - destruct (fault_at 1 w); lia.
  - intros Hq.
    rewrite (quiet_fault_at 2 0 w Hq), (quiet_fault_at 2 1 w Hq) by lia.
    lia.
  - destruct (fault_at 0 w); [split; reflexivity|].
    destruct (n >? 0) eqn:E; split; intros H;
      try discriminate; try reflexivity; lia.
  - destruct (fault_at 0 w).
    + split; [now left|reflexivity].
    + rewrite Hn. split; [now right|].
      intros [H|H]; [discriminate|exact H].
  - destruct (fault_at 0 w); [intros H; now elim H|].
    intros H. destruct (n >? 0) eqn:E; [eexists; reflexivity|lia].
Qed.

Lemma statistics_counts_are_consistent_witness :
  exists s : statistics,
    fst (get_statistics {| file := sample_library; faults := [] |})
    = Returned s
    /\ read_books s <= total_books s.
Proof.
  destruct (statistics_counts_are_consistent
              {| file := sample_library; faults := [] |})
    as [s [Hs [_ [_ [H _]]]]].
  exists s. split; [now rewrite Hs|].
  apply H. constructor.
Defined.

Lemma dict_total_perm (a b : dict) :
  Permutation a b -> dict_total a = dict_total b.
Proof.
  induction 1; simpl; lia.
Qed.

Lemma dict_total_app (a b : dict) :
  dict_total (a ++ b)%list = dict_total a + dict_total b.
Proof. induction a as [|x a IH]; simpl; lia. Qed.

Lemma group_total_bump {K : Type} (cmp : K -> K -> comparison) (k : K)
  (groups : list (K * Z)) :
  fold_right (fun g acc => snd g + acc) 0 (bump cmp k groups)
  = fold_right (fun g acc => snd g + acc) 0 groups + 1.
Proof.
  induction groups as [|[k' n] rest IH]; cbn [bump fold_right snd]; [lia|].
  destruct (cmp k k'); cbn [fold_right snd]; rewrite ?IH; lia.
Qed.

Lemma group_total {K : Type} (cmp : K -> K -> comparison) (keys : list K) :
  fold_right (fun g acc => snd g + acc) 0 (group_count cmp keys)
  = Z.of_nat (List.length keys).
Proof.
  induction keys as [|k keys IH]; [reflexivity|].
  cbn [group_count fold_right]. fold (group_count cmp keys).
  rewrite group_total_bump, IH. simpl List.length. lia.
Qed.

Lemma bump_positive {K : Type} (cmp : K -> K -> comparison) (k : K)
  (groups : list (K * Z)) :
  Forall (fun g => 0 < snd g) groups ->
  Forall (fun g => 0 < snd g) (bump cmp k groups).
Proof.
  induction 1 as [|[k' n] rest Hn Hrest IH]; cbn [bump].
  - repeat constructor.
  - simpl in Hn. destruct (cmp k k').
    + constructor; [simpl; lia|exact Hrest].
    + constructor; [simpl; lia|]. now constructor.
    + constructor; [exact Hn|exact IH].
Qed.

Lemma group_counts_positive {K : Type} (cmp : K -> K -> comparison)
  (keys : list K) :
  Forall (fun g => 0 < snd g) (group_count cmp keys).
Proof.
  induction keys as [|k keys IH]; [constructor|].
  cbn [group_count fold_right]. now apply bump_positive.
Qed.

Lemma labelled_total (gs : list (Z * Z)) :
  dict_total (map labelled gs)
  = fold_right (fun g acc => snd g + acc) 0 gs.
Proof. induction gs as [|g gs IH]; simpl; congruence. Qed.

Lemma total_of_pairs {K : Type} (a b : list (K * Z)) :
  Permutation a b ->
  fold_right (fun g acc => snd g + acc) 0 a
  = fold_right (fun g acc => snd g + acc) 0 b.
Proof. induction 1; simpl; lia. Qed.

(** X8.  When the queries of [get_statistics] run without fault, the per-decade
    counts add up to the total number of books: every book is in exactly
    one decade.  The genre and author counts add up to at most the total,
    since only five of each are kept. *)
Theorem decade_counts_add_up (w : world) :
  quiet 5 w ->
  exists s : statistics,
    get_statistics w = (Returned s, skip 5 w)
    /\ dict_total (decades s) = total_books s
    /\ 0 <= dict_total (genres s) <= total_books s
    /\ 0 <= dict_total (authors s) <= total_books s.
Proof.
  intros Hq.
  assert (Htop : forall column : row -> string,
             0 <= dict_total (top_counts column (books (file w)))
               <= Z.of_nat (List.length (books (file w)))).
  { intros column. unfold top_counts.
    set (ranked := order_by by_count_desc
                     (group_count String.compare
                        (map column (books (file w))))).
    assert (Hpos : Forall (fun g : string * Z => 0 < snd g) ranked).
    { eapply Permutation_Forall; [apply order_by_perm|].
      apply group_counts_positive. }
    assert (Hsum : dict_total ranked
                   = Z.of_nat (List.length (books (file w)))).
    { unfold dict_total, ranked.
      rewrite <- (total_of_pairs _ _ (order_by_perm by_count_desc _)).
      now rewrite group_total, length_map. }
    assert (Hsplit : dict_total ranked
                     = dict_total (firstn 5 ranked)
                       + dict_total (skipn 5 ranked))
      by (now rewrite <- dict_total_app, firstn_skipn).
    rewrite <- Hsum, Hsplit.
    assert (Hnn : forall l : dict,
               Forall (fun g : string * Z => 0 < snd g) l ->
               0 <= dict_total l).
    { induction 1; simpl; lia. }
    rewrite <- (firstn_skipn 5 ranked) in Hpos.
    apply Forall_app in Hpos. destruct Hpos as [H1 H2].
    pose proof (Hnn _ H1). pose proof (Hnn _ H2). lia. }
  exists (report w). split; [apply get_statistics_eq|].
  rewrite statistics_decades by (eapply quiet_fault_at; eauto).
  rewrite statistics_genres by (eapply quiet_fault_at; eauto).
  rewrite statistics_authors by (eapply quiet_fault_at; eauto).
  assert (Htotal : total_books (report w)
                   = Z.of_nat (List.length (books (file w)))).
  { unfold report. cbn [total_books].
    rewrite (quiet_fault_at 5 0 w Hq) by lia. reflexivity. }
  rewrite Htotal. repeat apply conj; try apply Htop.
  rewrite labelled_total. unfold decade_counts.
  rewrite <- (total_of_pairs _ _ (order_by_perm by_key _)).
  now rewrite group_total, length_map.
Qed.

Lemma decade_counts_add_up_witness :
  exists s : statistics,
    fst (get_statistics {| file := sample_library; faults := [] |})
    = Returned s
    /\ dict_total (decades s) = total_books s.
Proof.
  destruct (decade_counts_add_up {| file := sample_library; faults := [] |})
    as [s [Hs [H _]]].
  - constructor.
  - exists s. split; [now rewrite Hs|exact H].
Defined.


(* ================================================================== *)
(** * The add form *)
(* ================================================================== *)

Lemma lstrip_first (s : string) (c : ascii) :
  first_char (lstrip s) = Some c -> py_isspace c = false.
Proof.
  induction s as [|x s IH]; simpl; [discriminate|].
  destruct (py_isspace x) eqn:E; [exact IH|].
  simpl. intros [= <-]. exact E.
Qed.

Lemma rstrip_last (s : string) (c : ascii) :
  last_char (rstrip s) = Some c -> py_isspace c = false.
Proof.
  induction s as [|x s IH]; simpl; [discriminate|].
  destruct (rstrip s) as [|y kept] eqn:E.
  - destruct (py_isspace x) eqn:Ex; simpl; [discriminate|].
    intros [= <-]. exact Ex.
  - simpl. exact IH.
Qed.

Lemma rstrip_first (s : string) (c : ascii) :
  first_char s = Some c -> py_isspace c = false ->
  first_char (rstrip s) = Some c.
Proof.
  destruct s as [|x s]; simpl; [discriminate|].
  intros [= ->] Hc. destruct (rstrip s); [rewrite Hc|]; reflexivity.
Qed.

Lemma rstrip_first_inv (s : string) (c : ascii) :
  first_char (rstrip s) = Some c -> first_char s = Some c.
Proof.
  destruct s as [|x s]; simpl; [discriminate|].
  destruct (rstrip s); [destruct (py_isspace x)|]; simpl; congruence.
Qed.

Lemma strip_trimmed (s : string) : trimmed (strip s).
Proof.
  unfold trimmed, strip. split.
  - intros c Hc. apply rstrip_first_inv in Hc. now apply lstrip_first in Hc.
  - apply rstrip_last.
Qed.

Lemma lstrip_blank (s : string) : blank s = true -> lstrip s = EmptyString.
Proof.
  unfold blank. induction s as [|x s IH]; simpl; [reflexivity|].
  rewrite andb_true_iff. intros [-> Hs]. now apply IH.
Qed.

Lemma strip_blank (s : string) : blank s = true -> strip s = EmptyString.
Proof. intros H. unfold strip. now rewrite lstrip_blank. Qed.

Lemma rstrip_fixed (s : string) :
  (forall c, last_char s = Some c -> py_isspace c = false) -> rstrip s = s.
Proof.
  induction s as [|x s IH]; simpl; intros H; [reflexivity|].
  destruct s as [|y s'].
  - simpl. now rewrite (H x eq_refl).
  - rewrite IH by exact H. reflexivity.
Qed.

Lemma lstrip_fixed (s : string) :
  (forall c, first_char s = Some c -> py_isspace c = false) -> lstrip s = s.
Proof.
  destruct s as [|x s]; simpl; intros H; [reflexivity|].
  now rewrite (H x eq_refl).
Qed.

(** A text without white space at its ends is what the form stores. *)
Lemma strip_fixed (s : string) : trimmed s -> strip s = s.
Proof.
  intros [H1 H2]. unfold strip. rewrite lstrip_fixed by exact H1.
  now apply rstrip_fixed.
Qed.

(** The years that the number input gives are bound by the driver. *)
Lemma form_year_fits (year : Z) : in_form_range year -> sql_integer year.
Proof.
  unfold in_form_range, sql_integer, fits_integer, max_rowid. intros H.
  apply andb_true_iff. split; apply Z.leb_le.
  - assert (- 2 ^ 63 < 0) by reflexivity. lia.
  - assert (2100 < 2 ^ 63 - 1) by reflexivity. lia.
Qed.

(** X9.  The add form with one of title, author and genre left empty runs no
    query at all: the file and the fault schedule stay as they are and the
    user is told to fill in all fields. *)
Theorem add_form_rejects_empty_field
  (title author : string) (year : Z) (genre read_status : string)
  (w : world) :
  title = "" \/ author = "" \/ genre = "" ->
  add_book_form title author year genre read_status w
  = (Returned FillAllFields, w).
Proof.
  unfold add_book_form.
  intros [-> | [-> | ->]]; simpl; rewrite ?andb_false_r; reflexivity.
Qed.

Lemma add_form_rejects_empty_field_witness :
  add_book_form "Emma" "" 2003 "Novel" "Yes"
    {| file := sample_library; faults := [true] |}
  = (Returned FillAllFields, {| file := sample_library; faults := [true] |}).
Proof.
  apply (add_form_rejects_empty_field "Emma" "" 2003 "Novel" "Yes").
  right. left. reflexivity.
Defined.

(** X10.  The add form with its three text fields filled in.  Without a
    fault, for a year that the driver binds (every year of the number
    input is one) and with a rowid left to hand out, the book is stored
    with title, author and genre stripped of white space at both ends (so
    none of the stored texts starts or ends with white space), with the
    year as entered and with [read] true exactly for the radio label
    ["Yes"], and the success notice is shown.  With a fault, or with the
    rowids used up, nothing is stored and the failure notice is shown.  A
    year that the driver does not bind makes the form raise
    [OverflowError], nothing being stored. *)
Theorem add_form_stores_stripped_fields
  (title author : string) (year : Z) (genre read_status : string)
  (w : world) :
  title <> "" -> author <> "" -> genre <> "" ->
  (quiet 1 w -> sql_integer year -> room (file w) ->
   add_book_form title author year genre read_status w
   = (Returned BookAdded,
      {| file := inserted (file w) (strip title) (strip author) year
                   (strip genre) (String.eqb read_status "Yes");
         faults := skipn 1 (faults w) |}))
  /\ (faulted 0 w ->
      add_book_form title author year genre read_status w
      = (Returned AddFailed, skip 1 w))
  /\ (quiet 1 w -> sql_integer year -> ~ room (file w) ->
      add_book_form title author year genre read_status w
      = (Returned AddFailed, skip 1 w))
  /\ (quiet 1 w -> ~ sql_integer year ->
      add_book_form title author year genre read_status w
      = (Raised OverflowError, skip 1 w))
  /\ (in_form_range year -> sql_integer year)
  /\ trimmed (strip title) /\ trimmed (strip author)
  /\ trimmed (strip genre).
Proof.
  intros Ht Ha Hg.
  assert (Hgo : nonempty title && nonempty author && nonempty genre = true).
  { destruct title, author, genre; try congruence; reflexivity. }
  unfold add_book_form. rewrite Hgo.
  split; [|split; [|split; [|split; [|split]]]];
    try (repeat split; apply strip_trimmed).
  - intros Hq Hy Hroom. unfold bind.
    rewrite add_book_to_db_eq;
      [reflexivity|eapply quiet_fault_at; eauto|assumption..].
  - intros Hf. unfold bind.
    rewrite add_book_to_db_fault by exact Hf. reflexivity.
  - intros Hq Hy Hroom. unfold bind.
    rewrite add_book_to_db_full;
      [reflexivity|eapply quiet_fault_at; eauto|assumption..].
  - intros Hq Hy. unfold bind.
    rewrite add_book_to_db_overflow; [reflexivity| |].
    + eapply quiet_fault_at; eauto.
    + unfold sql_integer in Hy. now destruct (fits_integer year).
  - apply form_year_fits.
Qed.

Lemma add_form_stores_stripped_fields_witness :
  exists w' : world,
    add_book_form "  Emma " "Jane Austen" 2003 "Novel" "Yes" fresh_world
    = (Returned BookAdded, w')
    /\ map title (books (file w')) = ["Emma"].
Proof.
  destruct (add_form_stores_stripped_fields "  Emma " "Jane Austen" 2003
              "Novel" "Yes" fresh_world) as [H _]; try discriminate.
  eexists. split.
  - apply H.
    + constructor.
    + reflexivity.
    + unfold room. vm_compute. discriminate.
  - reflexivity.
Defined.

(** X11.  The presence check of the add form comes before the stripping: a title
    made of white space only passes it, and the book is stored, and then
    listed, with the empty title (the year being one that the driver
    binds, as every year of the number input is, and a rowid being left to
    hand out). *)
Theorem blank_title_is_stored_empty
  (title author : string) (year : Z) (genre read_status : string)
  (w : world) :
  title <> "" -> blank title = true -> author <> "" -> genre <> "" ->
  sql_integer year -> room (file w) ->
  quiet 2 w ->
  exists (w' : world) (listing : list book),
    add_book_form title author year genre read_status w
    = (Returned BookAdded, w')
    /\ get_all_books w' = (Returned listing, skip 1 w')
    /\ In (shown (next_rowid (file w)) "" (strip author) year (strip genre)
                 (String.eqb read_status "Yes"))
          listing.
Proof.
  intros Ht Hblank Ha Hg Hy Hroom Hq.
  assert (Hgo : nonempty title && nonempty author && nonempty genre = true).
  { destruct title, author, genre; try congruence; reflexivity. }
  assert (Hf0 : fault_at 0 w = false)
    by (eapply quiet_fault_at; [exact Hq|lia]).
  assert (Hf1 : fault_at 1 w = false)
    by (eapply quiet_fault_at; [exact Hq|lia]).
  unfold add_book_form. rewrite Hgo.
  eexists. eexists.
  split; [|split].
  - unfold bind. rewrite add_book_to_db_eq by assumption. reflexivity.
  - apply get_all_books_rows.
    change (fault_at 0 (skip 1 w) = false). now rewrite fault_at_skip.
  - rewrite (strip_blank title Hblank).
    cbn [file inserted books].
    replace (shown (next_rowid (file w)) "" (strip author) year (strip genre)
                   (String.eqb read_status "Yes"))
      with (to_book {| id := next_rowid (file w); title := "";
                       author := strip author; year := year;
                       genre := strip genre;
                       read := Z.b2z (String.eqb read_status "Yes") |})
      by (unfold to_book, shown; simpl; now rewrite py_bool_b2z).
    apply in_map, order_by_in, in_or_app. right. now left.
Qed.

Lemma blank_title_is_stored_empty_witness :
  exists (w' : world) (listing : list book),
    add_book_form "   " "Jane Austen" 2003 "Novel" "No" fresh_world
    = (Returned BookAdded, w')
    /\ get_all_books w' = (Returned listing, skip 1 w')
    /\ In (shown 1 "" "Jane Austen" 2003 "Novel" false) listing.
Proof.
  assert (Hq : quiet 2 fresh_world) by constructor.
  assert (Hblank : blank "   " = true) by reflexivity.
  assert (H1 : "   " <> "") by discriminate.
  assert (H2 : "Jane Austen" <> "") by discriminate.
  assert (H3 : "Novel" <> "") by discriminate.
  assert (Hy : sql_integer 2003) by reflexivity.
  assert (Hroom : room (file fresh_world))
    by (unfold room; vm_compute; discriminate).
  exact (blank_title_is_stored_empty "   " "Jane Austen" 2003 "Novel"
           "No" fresh_world H1 Hblank H2 H3 Hy Hroom Hq).
Defined.


(* ================================================================== *)
(** * Sessions at the display *)
(* ================================================================== *)

Lemma bind_pure_world {A B : Type} (m : M A) (k : A -> M B) (w : world) :
  (forall a w', snd (k a w') = w') -> snd (bind m k w) = snd (m w).
Proof.
  intros Hk. unfold bind. destruct (m w) as [[a|e] w']; [apply Hk|reflexivity].
Qed.

Lemma library_page_eq (w : world) :
  exists view, library_page w = (Returned view, skip 1 w).
Proof.
  unfold library_page, bind. rewrite get_all_books_eq.
  destruct (if fault_at 0 w then [] else map to_book (listed (file w)));
    eexists; reflexivity.
Qed.

Lemma library_page_world (w : world) : snd (library_page w) = skip 1 w.
Proof. destruct (library_page_eq w) as [view ->]. reflexivity. Qed.

Lemma search_page_eq (ty q : string) (w : world) :
  exists view,
    search_page ty q w
    = (Returned view, if nonempty q then skip 1 w else w).
Proof.
  unfold search_page, bind. destruct (nonempty q); [|eexists; reflexivity].
  rewrite search_books_eq.
  destruct (if fault_at 0 w then [] else map to_book (selected ty q (file w)));
    eexists; reflexivity.
Qed.

Lemma search_page_world (ty q : string) (w : world) :
  snd (search_page ty q w) = if nonempty q then skip 1 w else w.
Proof. destruct (search_page_eq ty q w) as [view ->]. reflexivity. Qed.

Lemma export_to_json_world (writable : bool) (w : world) :
  snd (export_to_json writable w) = skip 1 w.
Proof.
  unfold export_to_json, bind. rewrite get_all_books_eq.
  destruct writable; reflexivity.
Qed.

Lemma add_book_form_world
  (t au : string) (y : Z) (g rs : string) (w : world) :
  file (snd (add_book_form t au y g rs w)) = file w
  \/ file (snd (add_book_form t au y g rs w))
     = inserted (file w) (strip t) (strip au) y (strip g)
                (String.eqb rs "Yes").
Proof.
  unfold add_book_form.
  destruct (nonempty t && nonempty au && nonempty g); [|now left].
  rewrite bind_pure_world by (intros [|] w'; reflexivity).
  destruct (add_book_to_db_world (strip t) (strip au) y (strip g)
              (String.eqb rs "Yes") w) as [->|[_ ->]];
    [now left|now right].
Qed.

(** What an action can do to the file: nothing, an insert of stripped
    fields, or a delete. *)
Lemma perform_file (a : action) (w : world) :
  file (snd (perform a w)) = file w
  \/ (exists t au y g rs,
        a = Submit t au y g rs
        /\ file (snd (perform a w))
           = inserted (file w) (strip t) (strip au) y (strip g)
                      (String.eqb rs "Yes"))
  \/ (exists i, file (snd (perform a w)) = deleted (file w) i).
Proof.
  destruct a as [t au y g rs|b| |ty q| |writable]; unfold perform;
    rewrite bind_unit_world.
  - destruct (add_book_form_world t au y g rs w) as [->| ->].
    + now left.
    + right; left. now exists t, au, y, g, rs.
  - unfold press_delete.
    destruct (delete_book_world (book_id b) w) as [->| ->].
    + now left.
    + right; right. now exists (book_id b).
  - left. now rewrite library_page_world.
  - left. rewrite search_page_world. now destruct (nonempty q).
  - left. now rewrite get_statistics_eq.
  - left. now rewrite export_to_json_world.
Qed.

Lemma session_years (actions : list action) (w : world) :
  Forall from_the_form actions ->
  years_in_form_range (file w) ->
  years_in_form_range (file (session actions w)).
Proof.
  revert w. induction actions as [|a rest IH]; simpl; intros w Ha Hw;
    [exact Hw|].
  inversion Ha as [|? ? Ha1 Ha2]; subst.
  apply IH; [exact Ha2|].
  destruct (perform_file a w)
    as [->|[[t [au [y [g [rs [-> ->]]]]]]|[i ->]]].
  - exact Hw.
  - unfold years_in_form_range, inserted. cbn [books].
    apply Forall_app. split; [exact Hw|].
    constructor; [exact Ha1|constructor].
  - unfold years_in_form_range, deleted. cbn [books].
    unfold years_in_form_range in Hw. rewrite Forall_forall in *.
    intros r Hr. apply Hw. now apply filter_In in Hr.
Qed.

(** X12.  In a library filled through the add form, whose number input only
    gives years from 2000 to 2100 (deletes, searches and other page visits
    in between, faults or not), every stored year is in that range, and
    the per-decade statistics count the books by
    [floor(year / 10) * 10]. *)
Theorem form_years_give_floor_decades (actions : list action) (w : world) :
  Forall from_the_form actions ->
  years_in_form_range (file w) ->
  let w' := session actions w in
  years_in_form_range (file w')
  /\ (quiet 5 w' ->
      exists s : statistics,
        get_statistics w' = (Returned s, skip 5 w')
        /\ decades s = map labelled (decade_counts (books (file w')))
        /\ forall d n,
             In (d, n) (decade_counts (books (file w'))) <->
             0 < n
             /\ n = count_where (fun r => spec_decade (year r) =? d)
                                (books (file w'))).
Proof.
  intros Ha Hw w'.
  pose proof (session_years actions w Ha Hw) as Hyears. fold w' in Hyears.
  split; [exact Hyears|].
  intros Hq. exists (report w'). split; [apply get_statistics_eq|]. split.
  - apply statistics_decades. eapply quiet_fault_at; eauto.
  - intros d n. rewrite decade_counts_in.
    assert (Hsame : count_where (fun r => decade (year r) =? d)
                                (books (file w'))
                    = count_where (fun r => spec_decade (year r) =? d)
                                  (books (file w'))).
    { unfold count_where. f_equal. f_equal.
      unfold years_in_form_range in Hyears.
      induction Hyears as [|r rs Hr Hrs IH]; [reflexivity|].
      simpl. rewrite IH.
      rewrite (decade_floor (year r)) by (unfold in_form_range in Hr; lia).
      reflexivity. }
    now rewrite Hsame.
Qed.

Lemma form_years_give_floor_decades_witness :
  exists s : statistics,
    fst (get_statistics
           (session [Submit "Emma" "Jane Austen" 2003 "Novel" "Yes";
                     OpenLibrary;
                     Submit "Walden" "H. D. Thoreau" 2012 "Essay" "No"]
              fresh_world)) = Returned s
    /\ decades s = [("2000s", 1); ("2010s", 1)].
Proof.
  destruct (form_years_give_floor_decades
              [Submit "Emma" "Jane Austen" 2003 "Novel" "Yes";
               OpenLibrary;
               Submit "Walden" "H. D. Thoreau" 2012 "Essay" "No"]
              fresh_world) as [_ H].
  - repeat constructor; unfold in_form_range; lia.
  - constructor.
  - destruct H as [s [Hs [H _]]]; [constructor|].
    exists s. split; [now rewrite Hs|]. rewrite H. reflexivity.
Defined.

(* ================================================================== *)
(** * The pages: what is shown, delete buttons, card columns *)
(* ================================================================== *)

Lemma listing_ids_nodup (w : world) (listing : list book) :
  well_formed (file w) ->
  fst (get_all_books w) = Returned listing ->
  NoDup (map book_id listing).
Proof.
  intros Hwf. pose proof (well_formed_ids_nodup _ Hwf) as Hnd.
  rewrite get_all_books_eq. cbn [fst]. intros [= <-].
  destruct (fault_at 0 w); [constructor|now apply listed_ids_nodup].
Qed.

Lemma search_ids_nodup (ty q : string) (w : world) (results : list book) :
  well_formed (file w) ->
  fst (search_books ty q w) = Returned results ->
  NoDup (map book_id results).
Proof.
  intros Hwf. pose proof (well_formed_ids_nodup _ Hwf) as Hnd.
  rewrite search_books_eq. cbn [fst]. intros [= <-].
  destruct (fault_at 0 w); [constructor|now apply selected_ids_nodup].
Qed.

Lemma append_inj_r (p a b : string) : (p ++ a = p ++ b)%string -> a = b.
Proof.
  induction p as [|c p IH]; simpl; [auto|]. intros [= H]. now apply IH.
Qed.

Lemma prefixed_ids_nodup (prefix : string) (l : list book) :
  NoDup (map book_id l) ->
  NoDup (map (fun b => prefix ++ Text.str_of_int (book_id b)) l).
Proof.
  intros Hnd.
  rewrite <- (map_map book_id (fun i => prefix ++ Text.str_of_int i)).
  apply nodup_map_inj; [|exact Hnd].
  intros a b H. now apply str_of_int_inj, (append_inj_r prefix).
Qed.




(** X14.  On a well-formed file the delete buttons of a page carry pairwise
    distinct keys, one per book shown: in the search results (with the
    announced count equal to the number of entries) and on the cards of
    the library page, which show the listing in its order. *)
Theorem delete_keys_are_distinct (search_type search_query : string)
  (w : world) :
  well_formed (file w) ->
  (forall count entries,
     fst (search_page search_type search_query w)
     = Returned (Matches count entries) ->
     count = List.length entries /\ NoDup (map snd entries))
  /\ (forall shown_cards,
        fst (library_page w) = Returned (Shelves shown_cards) ->
        NoDup (map card_key shown_cards)
        /\ fst (get_all_books w) = Returned (map card_book shown_cards)).
Proof.
  intros Hwf. split.
  - intros count entries. unfold search_page, bind.
    destruct (nonempty search_query); [|discriminate].
    pose proof (search_ids_nodup search_type search_query w) as Hnd.
    destruct (search_books search_type search_query w) as [[l|e] w1];
      [|discriminate].
    specialize (Hnd l Hwf eq_refl).
    destruct l as [|b l]; [discriminate|].
    intros [= <- <-]. split; [simpl; now rewrite length_map|].
    change (NoDup (map snd (map (fun b0 => (book_line b0, delete_key b0))
                               (b :: l)))).
    rewrite map_map. cbn [snd].
    apply (prefixed_ids_nodup "delete_"), Hnd.
  - intros shown_cards. unfold library_page, bind.
    pose proof (listing_ids_nodup w) as Hnd.
    destruct (get_all_books w) as [[l|e] w1]; [|discriminate].
    specialize (Hnd l Hwf eq_refl). simpl fst.
    destruct l as [|b l]; [discriminate|].
    intros [= <-]. unfold cards. split.
    + rewrite map_map. cbn [card_key].
      assert (Hen : forall i (l0 : list book),
                 map (fun ib : nat * book => delete_card_key (snd ib))
                     (enumerate_from i l0)
                 = map delete_card_key l0).
      { intros i l0. revert i.
        induction l0 as [|x l0 IH]; intros i; simpl; [reflexivity|].
        now rewrite IH. }
      rewrite Hen. apply (prefixed_ids_nodup "delete_card_"), Hnd.
    + f_equal. rewrite map_map. cbn [card_book].
      generalize 0%nat. generalize (b :: l).
      induction l0 as [|x l0 IH]; intros i; simpl; [reflexivity|].
      now rewrite <- IH.
Qed.

Lemma delete_keys_are_distinct_witness :
  NoDup ["delete_card_2"; "delete_card_1"; "delete_card_4"].
Proof.
  assert (Hwf : well_formed sample_library).
  { unfold well_formed, sample_library; simpl.
    repeat apply conj; try lia; try (vm_compute; discriminate);
      repeat constructor; simpl; lia. }
  destruct (delete_keys_are_distinct "Title" "a"
              {| file := sample_library; faults := [] |} Hwf) as [_ H].
  destruct (H (cards (map to_book (listed sample_library))) eq_refl)
    as [Hkeys _].
  exact Hkeys.
Defined.

Lemma rows_by_id (rs : list row) (a b : row) :
  NoDup (map id rs) -> In a rs -> In b rs -> id a = id b -> a = b.
Proof.
  induction rs as [|r rs IH]; simpl; intros Hnd Ha Hb Hid; [tauto|].
  inversion Hnd as [|? ? Hfresh Hnd']; subst.
  destruct Ha as [->|Ha], Hb as [->|Hb]; auto.
  - exfalso. apply Hfresh. rewrite Hid. now apply in_map.
  - exfalso. apply Hfresh. rewrite <- Hid. now apply in_map.
Qed.

(** X15.  Pressing the delete button of a book that a listing of a well-formed
    file shows deletes that book and no other: without faults the button
    reports success, and the next listing holds the books of the first
    one except the book whose button was pressed. *)
Theorem delete_button_removes_its_book (b : book) (w : world)
  (listing : list book) :
  well_formed (file w) ->
  quiet 3 w ->
  get_all_books w = (Returned listing, skip 1 w) ->
  In b listing ->
  exists (w2 : world) (listing' : list book),
    press_delete b (skip 1 w) = (Returned true, w2)
    /\ get_all_books w2 = (Returned listing', skip 1 w2)
    /\ forall b', In b' listing' <-> In b' listing /\ b' <> b.
Proof.
  intros Hwf Hq Hlisting Hb.
  assert (Hf0 : fault_at 0 w = false)
    by (eapply quiet_fault_at; [exact Hq|lia]).
  assert (Hf1 : fault_at 1 w = false)
    by (eapply quiet_fault_at; [exact Hq|lia]).
  assert (Hf2 : fault_at 2 w = false)
    by (eapply quiet_fault_at; [exact Hq|lia]).
  assert (Hg1 : fault_at 0 (skip 1 w) = false)
    by now rewrite fault_at_skip.
  rewrite get_all_books_rows in Hlisting by exact Hf0.
  injection Hlisting as <-.
  pose proof (well_formed_ids_nodup _ Hwf) as Hnd.
  apply in_map_iff in Hb. destruct Hb as [rb [<- Hrb]].
  apply order_by_in in Hrb.
  assert (Hfit : fits_integer (book_id (to_book rb)) = true)
    by (apply (well_formed_ids_fit (file w)); assumption).
  eexists. eexists.
  split; [unfold press_delete; now apply delete_book_eq|].
  split.
  - apply get_all_books_rows.
    change (fault_at 0 (skip 1 (skip 1 w)) = false).
    now rewrite skip_skip, fault_at_skip.
  - intros b'. cbn [file skip books].
    rewrite !in_map_iff. split.
    + intros [r [<- Hr]]. apply order_by_in, filter_In in Hr.
      destruct Hr as [Hr Hne]. apply negb_true_iff, Z.eqb_neq in Hne.
      split.
      * exists r. split; [reflexivity|]. now apply order_by_in.
      * intros Heq. apply Hne. apply (f_equal book_id) in Heq. exact Heq.
    + intros [[r [<- Hr]] Hne]. apply order_by_in in Hr.
      exists r. split; [reflexivity|].
      apply order_by_in, filter_In. split; [exact Hr|].
      apply negb_true_iff, Z.eqb_neq. intros Hid. apply Hne.
      f_equal. eapply rows_by_id; eauto.
Qed.

Lemma delete_button_removes_its_book_witness :
  exists (w2 : world) (listing' : list book),
    press_delete (shown 2 "Emma" "Jane Austen" 2003 "Novel" false)
      (skip 1 {| file := sample_library; faults := [] |})
    = (Returned true, w2)
    /\ get_all_books w2 = (Returned listing', skip 1 w2)
    /\ ~ In (shown 2 "Emma" "Jane Austen" 2003 "Novel" false) listing'.
Proof.
  assert (Hwf : well_formed sample_library).
  { unfold well_formed, sample_library; simpl.
    repeat apply conj; try lia; try (vm_compute; discriminate);
      repeat constructor; simpl; lia. }
  destruct (delete_button_removes_its_book
              (shown 2 "Emma" "Jane Austen" 2003 "Novel" false)
              {| file := sample_library; faults := [] |}
              (map to_book (listed sample_library)) Hwf)
    as [w2 [listing' [Hp [Hl H]]]].
  - constructor.
  - reflexivity.
  - simpl. now left.
  - exists w2, listing'. split; [exact Hp|]. split; [exact Hl|].
    intros Hin. apply H in Hin. destruct Hin as [_ Hne]. now apply Hne.
Defined.

Lemma cards_shift (i : nat) (l : list book) :
  map (fun ib : nat * book =>
         {| card_column := Nat.modulo (fst ib) 3; card_book := snd ib;
            card_key := delete_card_key (snd ib) |})
      (enumerate_from (3 + i) l)
  = map (fun ib : nat * book =>
           {| card_column := Nat.modulo (fst ib) 3; card_book := snd ib;
              card_key := delete_card_key (snd ib) |})
        (enumerate_from i l).
Proof.
  revert i. induction l as [|x l IH]; intros i; [reflexivity|].
  cbn [enumerate_from map fst snd]. f_equal.
  - f_equal. replace (3 + i)%nat with (i + 1 * 3)%nat by lia.
    apply Nat.Div0.mod_add.
  - apply (IH (S i)).
Qed.

Lemma cards_three_more (a b c : book) (l : list book) :
  cards (a :: b :: c :: l)
  = {| card_column := 0; card_book := a; card_key := delete_card_key a |}
    :: {| card_column := 1; card_book := b; card_key := delete_card_key b |}
    :: {| card_column := 2; card_book := c; card_key := delete_card_key c |}
    :: cards l.
Proof.
  unfold cards. cbn [enumerate_from map fst snd]. do 3 f_equal.
  apply (cards_shift 0).
Qed.

Lemma column_sizes_bounded (n : nat) (l : list book) (k : nat) :
  (List.length l <= n)%nat -> (k < 3)%nat ->
  List.length (column k (cards l))
  = Nat.div (List.length l + 2 - k) 3.
Proof.
  revert l. induction n as [n IH] using (well_founded_induction lt_wf).
  intros l Hl Hk.
  destruct l as [|a [|b [|c l]]].
  - destruct k as [|[|[|k]]]; try lia; reflexivity.
  - destruct k as [|[|[|k]]]; try lia; reflexivity.
  - destruct k as [|[|[|k]]]; try lia; reflexivity.
  - rewrite cards_three_more. simpl List.length in *.
    assert (Hrec : List.length (column k (cards l))
                   = Nat.div (List.length l + 2 - k) 3).
    { apply (IH (List.length l)); lia. }
    replace (S (S (S (List.length l))) + 2 - k)%nat
      with ((List.length l + 2 - k) + 1 * 3)%nat by lia.
    rewrite Nat.div_add by lia. rewrite <- Hrec.
    unfold column. destruct k as [|[|[|k]]]; try lia;
      cbn [filter card_column Nat.eqb map List.length]; lia.
Qed.

(** X16.  The cards of the library page go to the three columns in turn: the
    book at position [i] of the listing is on the card at position [i], in
    column [i mod 3], so the three columns hold the books 0, 3, 6, ..., the
    books 1, 4, 7, ... and the books 2, 5, 8, ..., and their sizes differ
    by one at most. *)
Theorem cards_go_to_columns_in_turn (library : list book) :
  (forall i b,
     nth_error library i = Some b ->
     nth_error (cards library) i
     = Some {| card_column := Nat.modulo i 3; card_book := b;
               card_key := delete_card_key b |})
  /\ (forall k, (k < 3)%nat ->
        List.length (column k (cards library))
        = Nat.div (List.length library + 2 - k) 3)
  /\ (List.length (column 0 (cards library))
      + List.length (column 1 (cards library))
      + List.length (column 2 (cards library))
      = List.length library)%nat.
Proof.
  assert (Hsize : forall k, (k < 3)%nat ->
             List.length (column k (cards library))
             = Nat.div (List.length library + 2 - k) 3)
    by (intros k Hk; now apply (column_sizes_bounded (List.length library))).
  repeat apply conj.
  - unfold cards.
    assert (Hgen : forall (l : list book) j i b,
               nth_error l i = Some b ->
               nth_error
                 (map (fun ib : nat * book =>
                         {| card_column := Nat.modulo (fst ib) 3;
                            card_book := snd ib;
                            card_key := delete_card_key (snd ib) |})
                      (enumerate_from j l)) i
               = Some {| card_column := Nat.modulo (j + i) 3; card_book := b;
                         card_key := delete_card_key b |}).
    { induction l as [|x l IH]; intros j i b Hi.
      - destruct i; discriminate.
      - destruct i as [|i]; simpl in *.
        + injection Hi as ->. now rewrite Nat.add_0_r.
        + rewrite (IH (S j) i b Hi).
          replace (j + S i)%nat with (S j + i)%nat by lia. reflexivity. }
    intros i b Hi. apply (Hgen library 0%nat i b Hi).
  - exact Hsize.
  - rewrite (Hsize 0%nat), (Hsize 1%nat), (Hsize 2%nat) by lia.
    pose proof (Nat.div_mod_eq (List.length library + 2) 3).
    pose proof (Nat.div_mod_eq (List.length library + 2 - 1) 3).
    pose proof (Nat.div_mod_eq (List.length library + 2 - 2) 3).
    pose proof (Nat.mod_upper_bound (List.length library + 2) 3).
    pose proof (Nat.mod_upper_bound (List.length library + 2 - 1) 3).
    pose proof (Nat.mod_upper_bound (List.length library + 2 - 2) 3).
    rewrite Nat.sub_0_r.
    set (n := List.length library) in *.
    assert (Hn : (n = 3 * (n / 3) + n mod 3)%nat)
      by apply Nat.div_mod_eq.
    pose proof (Nat.mod_upper_bound n 3).
    replace (n + 2 - 2)%nat with n in * by lia.
    replace (n + 2 - 1)%nat with (n + 1)%nat in * by lia.
    lia.
Qed.

Lemma cards_go_to_columns_in_turn_witness :
  List.length (column 1 (cards (map to_book (listed sample_library))))
  = 1%nat.
Proof.
  destruct (cards_go_to_columns_in_turn
              (map to_book (listed sample_library)))
    as [_ [H _]].
  rewrite (H 1%nat) by lia. reflexivity.
Defined.


(* ================================================================== *)
(** * Export to JSON *)
(* ================================================================== *)

Lemma append_assoc (a b c : string) :
  ((a ++ b) ++ c = a ++ (b ++ c))%string.
Proof. induction a as [|x a IH]; simpl; congruence. Qed.

Lemma all_chars_app (p : ascii -> bool) (a b : string) :
  Text.all_chars p (a ++ b) = Text.all_chars p a && Text.all_chars p b.
Proof.
  induction a as [|x a IH]; simpl; [reflexivity|].
  now rewrite IH, andb_assoc.
Qed.

Lemma all_chars_weaken (p q : ascii -> bool) (s : string) :
  (forall c, p c = true -> q c = true) ->
  Text.all_chars p s = true -> Text.all_chars q s = true.
Proof.
  intros H. induction s as [|x s IH]; simpl; [reflexivity|].
  rewrite !andb_true_iff. intros [Hx Hs]. auto.
Qed.

(** ** Numerals *)

Lemma uint_numeral (d : Decimal.uint) :
  Text.all_chars numeral_char (NilEmpty.string_of_uint d) = true.
Proof. induction d; simpl; auto. Qed.

Lemma str_of_int_numeral (n : Z) :
  Text.all_chars numeral_char (Text.str_of_int n) = true.
Proof.
  unfold Text.str_of_int.
  assert (H : forall d, Text.all_chars numeral_char
                          (NilZero.string_of_uint d) = true).
  { intros d. destruct d; try reflexivity; apply uint_numeral. }
  destruct (Z.to_int n); simpl; auto.
Qed.

(** Two runs of characters of one kind, each followed by a character of
    another kind, are told apart by that character. *)
Lemma run_then_stop (p : ascii -> bool) (a b : string) (c : ascii)
  (x y : string) :
  Text.all_chars p a = true -> Text.all_chars p b = true -> p c = false ->
  (a ++ String c x = b ++ String c y)%string -> a = b /\ x = y.
Proof.
  revert b. induction a as [|u a IH]; intros [|v b]; simpl;
    rewrite ?andb_true_iff; intros Ha Hb Hc H.
  - now inversion H.
  - inversion H; subst. destruct Hb as [Hb _]. congruence.
  - inversion H; subst. destruct Ha as [Ha _]. congruence.
  - inversion H; subst. destruct Ha as [_ Ha], Hb as [_ Hb].
    destruct (IH b Ha Hb Hc H2) as [-> ->]. auto.
Qed.

(** ** Escaped strings *)

Lemma json_escape_char_back (c : ascii) (x : string) :
  json_unescape_char (json_escape_char c ++ x) = Some (c, x).
Proof. each_char c; reflexivity. Qed.

Lemma json_escape_char_portable (c : ascii) :
  Text.all_chars portable_char (json_escape_char c) = true.
Proof. each_char c; reflexivity. Qed.

Lemma json_escape_inj (s s' x y : string) :
  (json_escape s ++ String quote x = json_escape s' ++ String quote y)%string
  -> s = s' /\ x = y.
Proof.
  revert s'. induction s as [|c s IH]; intros [|c' s'] H.
  - simpl in H. now inversion H.
  - exfalso. cbn [json_escape] in H. rewrite append_assoc in H.
    apply (f_equal json_unescape_char) in H.
    rewrite json_escape_char_back in H. discriminate.
  - exfalso. cbn [json_escape] in H. rewrite append_assoc in H.
    apply (f_equal json_unescape_char) in H.
    rewrite json_escape_char_back in H. discriminate.
  - cbn [json_escape] in H. rewrite !append_assoc in H.
    apply (f_equal json_unescape_char) in H.
    rewrite !json_escape_char_back in H. injection H as -> H.
    destruct (IH s' H) as [-> ->]. auto.
Qed.

Lemma json_string_inj (s s' x y : string) :
  (json_string s ++ x = json_string s' ++ y)%string -> s = s' /\ x = y.
Proof.
  unfold json_string. cbn [append]. rewrite !append_assoc. cbn [append].
  intros [= H]. now apply json_escape_inj.
Qed.

Lemma json_bool_inj (b b' : bool) (x y : string) :
  (json_bool b ++ newline ++ x = json_bool b' ++ newline ++ y)%string ->
  b = b' /\ x = y.
Proof.
  destruct b, b'; simpl; intros H; inversion H; auto.
Qed.

Lemma json_escape_portable (s : string) :
  Text.all_chars portable_char (json_escape s) = true.
Proof.
  induction s as [|c s IH]; simpl; [reflexivity|].
  now rewrite all_chars_app, json_escape_char_portable, IH.
Qed.

Lemma json_string_portable (s : string) :
  Text.all_chars portable_char (json_string s) = true.
Proof.
  unfold json_string. cbn [Text.all_chars].
  rewrite all_chars_app, json_escape_portable. reflexivity.
Qed.

Lemma str_of_int_portable (n : Z) :
  Text.all_chars portable_char (Text.str_of_int n) = true.
Proof.
  eapply all_chars_weaken; [|apply str_of_int_numeral].
  intros c. each_char c; congruence.
Qed.

(** ** Entries and documents *)

Ltac peel H := first [apply append_inj_r in H | injection H as H].

Lemma json_entry_inj (e e' : entry) (x y : string) :
  (json_entry e ++ x = json_entry e' ++ y)%string -> e = e' /\ x = y.
Proof.
  destruct e as [t a yr g r], e' as [t' a' yr' g' r'].
  unfold json_entry. cbn [entry_title entry_author entry_year entry_genre
                          entry_read].
  rewrite !append_assoc. intros H.
  do 3 peel H. apply json_string_inj in H. destruct H as [-> H].
  do 3 peel H. apply json_string_inj in H. destruct H as [-> H].
  do 3 peel H.
  change ("," ++ ?s)%string with (String "," s) in H.
  apply (run_then_stop numeral_char) in H;
    [|apply str_of_int_numeral|apply str_of_int_numeral|reflexivity].
  destruct H as [Hy H]. apply str_of_int_inj in Hy. subst yr'.
  do 2 peel H. apply json_string_inj in H. destruct H as [-> H].
  do 3 peel H.
  unfold indent1 in H. rewrite !append_assoc in H.
  apply json_bool_inj in H. destruct H as [-> H].
  do 2 peel H. auto.
Qed.

Lemma json_items_inj (e e' : entry) (rest rest' : list entry) :
  (json_items e rest ++ newline ++ "]"
   = json_items e' rest' ++ newline ++ "]")%string ->
  e :: rest = e' :: rest'.
Proof.
  revert e e' rest'.
  induction rest as [|e2 rest IH]; intros e e' [|e2' rest'];
    cbn [json_items]; rewrite ?append_assoc; intros H;
    apply json_entry_inj in H; destruct H as [-> H].
  - reflexivity.
  - discriminate.
  - discriminate.
  - apply append_inj_r in H. apply append_inj_r in H.
    f_equal. now apply IH.
Qed.

(** X19.  The exported text determines the exported records: two lists of
    records with the same text are the same list.  Nothing of title,
    author, year, genre or read flag is lost or confused by the escaping
    and the layout. *)
Theorem json_dump_loses_nothing (library library' : list entry) :
  json_dump library = json_dump library' -> library = library'.
Proof.
  destruct library as [|e rest], library' as [|e' rest']; cbn [json_dump].
  - reflexivity.
  - discriminate.
  - discriminate.
  - intros H. apply append_inj_r in H. apply append_inj_r in H.
    now apply json_items_inj.
Qed.

Lemma json_dump_loses_nothing_witness :
  [ {| entry_title := "a"; entry_author := "b"; entry_year := 2001;
       entry_genre := "c"; entry_read := true |} ]
  = [ {| entry_title := "a"; entry_author := "b"; entry_year := 2001;
         entry_genre := "c"; entry_read := true |} ].
Proof.
  apply json_dump_loses_nothing. reflexivity.
Defined.

Lemma json_entry_portable (e : entry) :
  Text.all_chars portable_char (json_entry e) = true.
Proof.
  unfold json_entry, json_key.
  rewrite !all_chars_app, !json_string_portable, str_of_int_portable.
  destruct (entry_read e); reflexivity.
Qed.

Lemma json_items_portable (e : entry) (rest : list entry) :
  Text.all_chars portable_char (json_items e rest) = true.
Proof.
  revert e. induction rest as [|e' rest IH]; intros e; cbn [json_items].
  - apply json_entry_portable.
  - now rewrite !all_chars_app, json_entry_portable, IH.
Qed.

(** X20.  The exported text consists of printable ASCII characters and line
    feeds only, whatever characters the stored texts hold: it reads the
    same under every text encoding the file may be written in. *)
Theorem json_dump_is_plain_ascii (library : list entry) :
  Text.all_chars portable_char (json_dump library) = true.
Proof.
  destruct library as [|e rest]; cbn [json_dump]; [reflexivity|].
  now rewrite !all_chars_app, json_items_portable.
Qed.

(** X17.  Export without a storage fault: the text written is the JSON document
    of the books in listing order (ascending title), each without its id,
    the number announced is the number of rows of the table, and the
    library file is left as it was; when the export file cannot be
    written, the failure notice is shown instead. *)
Theorem export_writes_every_book (w : world) :
  quiet 1 w ->
  exists rows : list row,
    Permutation rows (books (file w))
    /\ StronglySorted
         (fun a b => String.leb (title a) (title b) = true) rows
    /\ export_to_json true w
       = (Returned
            (Exported
               (json_dump
                  (map (fun r => {| entry_title := title r;
                                    entry_author := author r;
                                    entry_year := year r;
                                    entry_genre := genre r;
                                    entry_read := py_bool (read r) |}) rows))
               (List.length (books (file w)))),
          skip 1 w)
    /\ export_to_json false w = (Returned ExportFailed, skip 1 w).
Proof.
  intros Hq.
  assert (Hf : fault_at 0 w = false) by (eapply quiet_fault_at; eauto).
  exists (order_by by_title (books (file w))).
  repeat apply conj.
  - symmetry. apply order_by_perm.
  - apply (order_by_sorted by_title by_title_total by_title_trans).
  - unfold export_to_json, bind.
    rewrite get_all_books_rows by exact Hf.
    rewrite !length_map, order_by_length, map_map. reflexivity.
  - unfold export_to_json, bind. rewrite get_all_books_eq. reflexivity.
Qed.

Lemma export_writes_every_book_witness :
  exists text,
    fst (export_to_json true {| file := sample_library; faults := [] |})
    = Returned (Exported text 3).
Proof.
  destruct (export_writes_every_book
              {| file := sample_library; faults := [] |})
    as [rows [_ [_ [H _]]]].
  - constructor.
  - rewrite H. eexists. reflexivity.
Defined.

(** X18.  Export when the read of the library meets a storage fault: the export
    still goes through, writes the empty document ["[]"] over the export
    file and announces 0 books, whatever the table holds; nothing is
    raised. *)
Theorem export_after_fault_is_empty (w : world) :
  faulted 0 w ->
  export_to_json true w = (Returned (Exported "[]" 0), skip 1 w)
  /\ export_to_json false w = (Returned ExportFailed, skip 1 w).
Proof.
  unfold faulted. fold (fault_at 0 w). intros Hf.
  unfold export_to_json, bind. rewrite get_all_books_eq, Hf.
  split; reflexivity.
Qed.

Lemma export_after_fault_is_empty_witness :
  export_to_json true {| file := sample_library; faults := [true] |}
  = (Returned (Exported "[]" 0), {| file := sample_library; faults := [] |}).
Proof.
  apply (export_after_fault_is_empty
           {| file := sample_library; faults := [true] |}).
  reflexivity.
Defined.

(* ================================================================== *)
(** * Backup *)
(* ================================================================== *)

Lemma digit_inj (a b : N) : (a < 10)%N -> (b < 10)%N ->
  digit a = digit b -> a = b.
Proof.
  intros Ha Hb H. unfold digit in H.
  rewrite !N.mod_small in H by lia.
  apply (f_equal N_of_ascii) in H.
  rewrite !N_ascii_embedding in H by lia. lia.
Qed.

Lemma digit_mod (n : N) : digit n = digit (n mod 10).
Proof.
  unfold digit. now rewrite N.Div0.mod_mod.
Qed.

Lemma pad2_inj (a b : N) : (a < 100)%N -> (b < 100)%N ->
  pad2 a = pad2 b -> a = b.
Proof.
  intros Ha Hb H. unfold pad2 in H. injection H as H1 H2.
  rewrite (digit_mod a), (digit_mod b) in H2.
  apply digit_inj in H1;
    [|apply N.Div0.div_lt_upper_bound; lia
     |apply N.Div0.div_lt_upper_bound; lia].
  apply digit_inj in H2; [|apply N.mod_lt; lia|apply N.mod_lt; lia].
  rewrite (N.div_mod a 10), (N.div_mod b 10) by lia. congruence.
Qed.

Lemma pad4_inj (a b : N) : (a < 10000)%N -> (b < 10000)%N ->
  pad4 a = pad4 b -> a = b.
Proof.
  intros Ha Hb H. unfold pad4, pad2 in H. injection H as H1 H2 H3 H4.
  rewrite (digit_mod (a / 100)), (digit_mod (b / 100)) in H2.
  rewrite (digit_mod (a / 10)), (digit_mod (b / 10)) in H3.
  rewrite (digit_mod a), (digit_mod b) in H4.
  apply digit_inj in H1;
    [|apply N.Div0.div_lt_upper_bound; lia
     |apply N.Div0.div_lt_upper_bound; lia].
  apply digit_inj in H2; [|apply N.mod_lt; lia|apply N.mod_lt; lia].
  apply digit_inj in H3; [|apply N.mod_lt; lia|apply N.mod_lt; lia].
  apply digit_inj in H4; [|apply N.mod_lt; lia|apply N.mod_lt; lia].
  pose proof (N.div_mod a 10). pose proof (N.div_mod b 10).
  pose proof (N.div_mod (a / 10) 10). pose proof (N.div_mod (b / 10) 10).
  pose proof (N.div_mod (a / 100) 10). pose proof (N.div_mod (b / 100) 10).
  assert (Ea : (a / 10 / 10 = a / 100)%N)
    by (rewrite N.Div0.div_div; reflexivity).
  assert (Eb : (b / 10 / 10 = b / 100)%N)
    by (rewrite N.Div0.div_div; reflexivity).
  assert (Fa : (a / 100 / 10 = a / 1000)%N)
    by (rewrite N.Div0.div_div; reflexivity).
  assert (Fb : (b / 100 / 10 = b / 1000)%N)
    by (rewrite N.Div0.div_div; reflexivity).
  rewrite Ea in *. rewrite Eb in *. rewrite Fa in *. rewrite Fb in *.
  lia.
Qed.

(** Clock readings that differ give different backup paths. *)
Lemma backup_file_inj (t t' : clock) :
  valid_clock t -> valid_clock t' -> backup_file t = backup_file t' ->
  t = t'.
Proof.
  destruct t as [y m d h mi s], t' as [y' m' d' h' mi' s'].
  unfold valid_clock, backup_file, strftime. cbn [clock_year clock_month
    clock_day clock_hour clock_minute clock_second].
  intros Hv Hv' H.
  apply append_inj_r in H.
  unfold pad4, pad2 in H. cbn [append] in H.
  injection H as Y1 Y2 Y3 Y4 M1 M2 D1 D2 H1 H2 I1 I2 S1 S2.
  assert (Ey : y = y')
    by (apply pad4_inj; [lia|lia|unfold pad4, pad2; congruence]).
  assert (Em : m = m')
    by (apply pad2_inj; [lia|lia|unfold pad2; congruence]).
  assert (Ed : d = d')
    by (apply pad2_inj; [lia|lia|unfold pad2; congruence]).
  assert (Eh : h = h')
    by (apply pad2_inj; [lia|lia|unfold pad2; congruence]).
  assert (Ei : mi = mi')
    by (apply pad2_inj; [lia|lia|unfold pad2; congruence]).
  assert (Es : s = s')
    by (apply pad2_inj; [lia|lia|unfold pad2; congruence]).
  congruence.
Qed.

Lemma read_write_same (path : string) (content : database)
  (dir : directory) :
  read_file path (write_file path content dir) = Some content.
Proof.
  induction dir as [|[p c] dir IH]; simpl.
  - now rewrite String.eqb_refl.
  - destruct (String.eqb path p) eqn:E; simpl; now rewrite E.
Qed.

Lemma read_write_other (path other : string) (content : database)
  (dir : directory) :
  other <> path ->
  read_file other (write_file path content dir) = read_file other dir.
Proof.
  intros Hne. induction dir as [|[p c] dir IH]; simpl.
  - destruct (String.eqb_spec other path); [contradiction|reflexivity].
  - destruct (String.eqb_spec path p) as [->|Hp]; simpl.
    + destruct (String.eqb_spec other p); [contradiction|reflexivity].
    + now rewrite IH.
Qed.

(** X21.  Two backups that go through, the library possibly changed in
    between.  Taken at different readings of the clock (which counts
    seconds), they lie side by side, each holding the library as it was
    when taken, and every other file of the directory is as before.
    Taken within the same second they share one path, and only the
    later copy remains. *)
Theorem backups_of_different_seconds_coexist
  (now later : clock) (library library' : database)
  (backups : option directory) :
  valid_clock now -> valid_clock later ->
  let after_first := snd (backup_database now true library backups) in
  let after_second := snd (backup_database later true library' after_first) in
  read_file (backup_file later) (files_of after_second) = Some library'
  /\ (now <> later ->
      read_file (backup_file now) (files_of after_second) = Some library)
  /\ (now = later ->
      read_file (backup_file now) (files_of after_second) = Some library')
  /\ (forall path, path <> backup_file now -> path <> backup_file later ->
        read_file path (files_of after_second)
        = read_file path (files_of backups)).
Proof.
  intros Hv Hv' after_first after_second.
  unfold after_second, after_first, backup_database. cbn [snd files_of].
  repeat apply conj.
  - apply read_write_same.
  - intros Hne. rewrite read_write_other.
    + apply read_write_same.
    + intros H. apply Hne. now apply backup_file_inj.
  - intros ->. apply read_write_same.
  - intros path H1 H2. rewrite !read_write_other by assumption.
    now destruct backups.
Qed.

Lemma backups_of_different_seconds_coexist_witness :
  let t1 := {| clock_year := 2026; clock_month := 11; clock_day := 3;
               clock_hour := 10; clock_minute := 5; clock_second := 7 |} in
  let t2 := {| clock_year := 2026; clock_month := 11; clock_day := 3;
               clock_hour := 10; clock_minute := 5; clock_second := 8 |} in
  read_file "backups/library_backup_20261103_100507.db"
    (files_of
       (snd (backup_database t2 true Sqlite.empty
               (snd (backup_database t1 true sample_library None)))))
  = Some sample_library.
Proof.
  intros t1 t2.
  assert (H1 : valid_clock t1) by (unfold valid_clock, t1; simpl; lia).
  assert (H2 : valid_clock t2) by (unfold valid_clock, t2; simpl; lia).
  destruct (backups_of_different_seconds_coexist t1 t2 sample_library
              Sqlite.empty None H1 H2) as [_ [H _]].
  apply H. unfold t1, t2. discriminate.
Defined.

